(** * Feast GCP Datastore provider: online store writes, reads and materialization

    A shallow embedding of [sdk/python/feast/infra/gcp.py] and theorems about
    it.  Python objects that the module receives from outside (protobuf
    messages, the murmur hash, the Datastore client) are modelled explicitly:
    the protobuf runtime and the hash as an interface ([ProtoRuntime]), the
    Datastore client as a state record ([World]) on which the module's
    functions act through a small state-and-exception monad ([Py]). *)

From Stdlib Require Import ZArith NArith List Lia.
From Stdlib.Strings Require Import Ascii String Byte.
From stdpp Require Import gmap strings list fin_maps sorting pretty.
From Equations Require Import Equations.
From Equations.Prop Require Logic.

Set Default Proof Using "Type".
Open Scope Z_scope.

(** ** Bytes and their hexadecimal rendering ([bytes.hex()]) *)

Abbreviation bytes := (list byte).

Module Hex.

(** One hexadecimal digit, lowercase, as [bytes.hex()] prints it. *)
Definition hex_digit (n : N) : ascii :=
  if (n <? 10)%N then ascii_of_N (48 + n) else ascii_of_N (87 + n).

Definition byte_hex (b : byte) : list ascii :=
  let n := Byte.to_N b in
  [hex_digit (n / 16)%N; hex_digit (n mod 16)%N].

Fixpoint chars_hex (bs : bytes) : list ascii :=
  match bs with
  | [] => []
  | b :: bs' => byte_hex b ++ chars_hex bs'
  end.

(** [bs.hex()] *)
Definition hex (bs : bytes) : string := string_of_list_ascii (chars_hex bs).

(** The characters a lowercase hexadecimal text is made of. *)
Definition lower_hex_alphabet : list ascii :=
  list_ascii_of_string "0123456789abcdef".

Definition is_lower_hex (c : ascii) : Prop := c ∈ lower_hex_alphabet.

End Hex.

(** ** Timestamps

    A Python [datetime] is either naive ([tzinfo] absent) or aware.  What the
    module does with one is normalise it and compare it, so a datetime is
    its wall-clock reading in microseconds and its optional UTC offset. *)

Record datetime := mk_datetime {
  wall_us : Z;
  utcoffset : option Z
}.

(** Modelled from the spec: [feast.utils.make_tzaware] is not among the
    sources; the spec says timestamps are normalized to timezone-aware form
    before use.  A naive datetime is read as UTC, an aware one is kept. *)
Definition make_tzaware (t : datetime) : datetime :=
  match utcoffset t with
  | None => mk_datetime (wall_us t) (Some 0)
  | Some _ => t
  end.

(** The instant an aware datetime denotes; Python compares aware datetimes
    by it, and Datastore stores it. *)
Definition instant (t : datetime) : Z :=
  wall_us t - default 0 (utcoffset t).

(** ** Protobuf messages and the external runtime *)

Section Protos.

Context {ValueProto : Type}.

Record EntityKeyProto := mk_EntityKey {
  join_keys : list string;
  entity_values : list ValueProto
}.

(** A row handed to [online_write_batch]:
    [Tuple[EntityKeyProto, Dict[str, ValueProto], datetime, Optional[datetime]]]. *)
Record Row := mk_Row {
  row_entity_key : EntityKeyProto;
  row_features : gmap string ValueProto;
  row_timestamp : datetime;
  row_created_ts : option datetime
}.

End Protos.

Arguments EntityKeyProto : clear implicits.
Arguments Row : clear implicits.

(** What the module calls but does not define: protobuf (de)serialisation,
    the per-value encoding used by the key codec, and [mmh3.hash_bytes]. *)
Class ProtoRuntime (ValueProto : Type) := {
  Value_SerializeToString : ValueProto → bytes;
  Value_ParseFromString : bytes → ValueProto;
  EntityKey_SerializeToString : EntityKeyProto ValueProto → bytes;
  value_type_tag : ValueProto → N;
  value_payload : ValueProto → bytes;
  mmh3_hash_bytes : bytes → bytes
}.

(** ** Key codec *)

Module KeyCodec.
Section KeyCodec.

Context {ValueProto : Type} `{!ProtoRuntime ValueProto}.

(** [struct.pack("<I", n)]: four bytes, little endian. *)
Definition pack_u32 (n : N) : bytes :=
  let b (k : N) := default x00 (Byte.of_N ((n / 256 ^ k) mod 256)%N) in
  [b 0%N; b 1%N; b 2%N; b 3%N].

Definition utf8 (s : string) : bytes := byte_of_ascii <$> list_ascii_of_string s.

(** Order of two (name, value) pairs: by join-key name. *)
Definition name_le (p q : string * ValueProto) : Prop := String.le p.1 q.1.

#[export] Instance name_le_dec : RelDecision name_le.
Proof. intros p q. unfold name_le. apply _. Defined.

(** Type tag of a string in the tag scheme. *)
Definition STRING_TAG : N := 2.

Definition encode_item (tag : N) (payload : bytes) : bytes :=
  pack_u32 tag ++ pack_u32 (N.of_nat (length payload)) ++ payload.

(** Modelled from the spec: [feast.infra.key_encoding_utils.serialize_entity_key]
    is not among the sources.  The spec: it serializes join-key names and
    typed values in canonical (name-sorted) order using a fixed,
    self-describing binary layout (type tag + length-prefixed payload per
    value). *)
Definition serialize_entity_key (entity_key : EntityKeyProto ValueProto) : bytes :=
  let sorted_pairs :=
    merge_sort name_le (zip (join_keys entity_key) (entity_values entity_key)) in
  concat ((λ p, encode_item STRING_TAG (utf8 p.1)) <$> sorted_pairs)
  ++ concat ((λ p, encode_item (value_type_tag p.2) (value_payload p.2)) <$> sorted_pairs).

(** [compute_datastore_entity_id]: the hex text of the murmur hash of the
    serialized key. *)
Definition compute_datastore_entity_id (entity_key : EntityKeyProto ValueProto) : string :=
  Hex.hex (mmh3_hash_bytes (serialize_entity_key entity_key)).

End KeyCodec.
End KeyCodec.

(** ** Minibatches *)

Module Batch.
Section Batch.

Context {A : Type}.

(** [_to_minibatches]: the generator takes [batch_size] items at a time
    ([itertools.islice]) and stops at the first empty slice.  The list of
    what it yields. *)
Equations? _to_minibatches (batch_size : nat) (data : list A) : list (list A)
  by wf (length data) lt :=
  _to_minibatches batch_size data with Logic.inspect (take batch_size data) := {
    | exist _ [] _ => [];
    | exist _ (x :: batch) Hbatch =>
        (x :: batch) :: _to_minibatches batch_size (drop batch_size data) }.
Proof.
  destruct batch_size as [|n]; [done|].
  destruct data as [|y data]; [done|].
  rewrite length_drop. simpl. lia.
Qed.

(** The default [batch_size=50]. *)
Definition default_batch_size : nat := 50.

(** The check [itertools.islice(iterable, batch_size)] makes of an integer
    [batch_size]: a stop below 0 or above [sys.maxsize] is a [ValueError];
    [None] stands for the raise. *)
Definition islice_stop (maxsize batch_size : Z) : option nat :=
  if bool_decide (0 ≤ batch_size ≤ maxsize)%Z then Some (Z.to_nat batch_size) else None.

(** [list(_to_minibatches(data, batch_size))] for any integer [batch_size]:
    [islice] is called when the generator is first advanced, for empty
    [data] too, so a [batch_size] it refuses raises before anything is
    yielded. *)
Definition _to_minibatches_int (maxsize batch_size : Z) (data : list A)
  : option (list (list A)) :=
  match islice_stop maxsize batch_size with
  | Some stop => Some (_to_minibatches stop data)
  | None => None
  end.

End Batch.
End Batch.

(** ** Python exceptions and the effect monad *)

Inductive PyExc :=
| Conflict                       (* google.api_core.exceptions.Conflict *)
| AssertionError
| EntityNotFound (name : string)
| BackendError (msg : string).   (* any other error of a collaborator *)

Inductive Result (A : Type) :=
| Ok (a : A)
| Raise (e : PyExc).
Arguments Ok {A} a.
Arguments Raise {A} e.

Definition is_ok {A} (r : Result A) : bool :=
  match r with Ok _ => true | Raise _ => false end.

(** ** The Datastore client

    A key is a path of (kind, name) pairs, as built by [client.key(...)].
    A [Row] entity carries the four properties that [_write_minibatch] sets;
    Datastore keeps a timestamp property as an instant. *)

Module Datastore.

Abbreviation Key := (list (string * string)).

Record Entity := mk_Entity {
  ent_key : bytes;
  ent_values : gmap string bytes;
  ent_event_ts : Z;
  ent_created_ts : option Z
}.

Inductive Mutation :=
| Upsert (k : Key) (e : Entity)
| Delete (k : Key).

(** The client and the backend behind it.  [txn] is the open transaction
    with the mutations it has buffered, oldest first.  [commit_fault n] is
    what the backend answers to the [n]-th commit request it receives
    ([None]: the commit goes through); [commits_seen] counts the requests.
    [progress_log] is where the recording progress callback notes the
    arguments of its calls. *)
Record World := mk_World {
  datastore : gmap Key Entity;
  txn : option (list Mutation);
  commit_fault : nat → option PyExc;
  commits_seen : nat;
  progress_log : list Z
}.

Definition set_datastore (d : gmap Key Entity) (w : World) : World :=
  mk_World d (txn w) (commit_fault w) (commits_seen w) (progress_log w).
Definition set_txn (t : option (list Mutation)) (w : World) : World :=
  mk_World (datastore w) t (commit_fault w) (commits_seen w) (progress_log w).
Definition set_commits_seen (n : nat) (w : World) : World :=
  mk_World (datastore w) (txn w) (commit_fault w) n (progress_log w).
Definition set_progress_log (l : list Z) (w : World) : World :=
  mk_World (datastore w) (txn w) (commit_fault w) (commits_seen w) l.

Definition apply_mutation (d : gmap Key Entity) (m : Mutation) : gmap Key Entity :=
  match m with
  | Upsert k e => <[k := e]> d
  | Delete k => delete k d
  end.

(** Mutations of one commit are applied in order. *)
Definition apply_mutations (ms : list Mutation) (d : gmap Key Entity) : gmap Key Entity :=
  foldl apply_mutation d ms.

(** Kind of the entity a key names: the kind of its last path element. *)
Definition key_kind (k : Key) : option string := fst <$> last k.

(** [k] lies under [ancestor] in the key hierarchy. *)
Definition has_ancestor (ancestor k : Key) : bool :=
  bool_decide (ancestor `prefix_of` k).

End Datastore.
Import Datastore.

(** Computations of the module: they read and change the world and either
    return or raise; what they did before raising stays done. *)
Definition Py (A : Type) : Type := World → Result A * World.

Definition ret {A} (a : A) : Py A := λ w, (Ok a, w).
Definition raise {A} (e : PyExc) : Py A := λ w, (Raise e, w).
Definition bind {A B} (m : Py A) (k : A → Py B) : Py B :=
  λ w, match m w with
       | (Ok a, w') => k a w'
       | (Raise e, w') => (Raise e, w')
       end.

#[global] Instance Py_ret : MRet Py := @ret.
#[global] Instance Py_bind : MBind Py := λ A B k m, bind m k.

(** [try: body  except: handler] *)
Definition try_except {A} (body : Py A) (handler : PyExc → Py A) : Py A :=
  λ w, match body w with
       | (Ok a, w') => (Ok a, w')
       | (Raise e, w') => handler e w'
       end.

(** [for x in xs: acc = body(acc, x)], stopping at the first exception. *)
Fixpoint for_fold {A B} (body : B → A → Py B) (acc : B) (xs : list A) : Py B :=
  match xs with
  | [] => ret acc
  | x :: xs' => acc' ← body acc x; for_fold body acc' xs'
  end.

Module Client.

(** [client.get(key)]: the committed entity, or [None].  A read inside a
    transaction does not see the transaction's own buffered writes. *)
Definition get (key : Key) : Py (option Entity) :=
  λ w, (Ok (datastore w !! key), w).

Definition mutate (m : Mutation) : Py unit :=
  λ w, match txn w with
       | Some buffered => (Ok tt, set_txn (Some (buffered ++ [m])) w)
       | None => (Ok tt, set_datastore (apply_mutation (datastore w) m) w)
       end.

(** [client.put(entity)]: buffered when a transaction is open, applied at
    once otherwise. *)
Definition put (key : Key) (entity : Entity) : Py unit := mutate (Upsert key entity).

(** [client.delete(key)] *)
Definition delete (key : Key) : Py unit := mutate (Delete key).

(** The commit request that ends a transaction: the backend either applies
    the buffered mutations or answers with an error and applies nothing. *)
Definition commit : Py unit :=
  λ w, let buffered := default [] (txn w) in
       let w' := set_commits_seen (S (commits_seen w)) (set_txn None w) in
       match commit_fault w (commits_seen w) with
       | None => (Ok tt, set_datastore (apply_mutations buffered (datastore w)) w')
       | Some e => (Raise e, w')
       end.

(** [with client.transaction(): body]: begin, run the body, commit on a
    normal exit, roll back when the body raises. *)
Definition transaction {A} (body : Py A) : Py A :=
  λ w, match body (set_txn (Some []) w) with
       | (Ok a, w1) =>
           match commit w1 with
           | (Ok _, w2) => (Ok a, w2)
           | (Raise e, w2) => (Raise e, w2)
           end
       | (Raise e, w1) => (Raise e, set_txn None w1)
       end.

(** [list(client.query(kind=kind, ancestor=ancestor).fetch(limit=limit))]:
    at most [limit] of the committed entities of that kind under the
    ancestor. *)
Definition query_fetch (kind : string) (ancestor : Key) (limit : nat)
  : Py (list (Key * Entity)) :=
  λ w, (Ok (take limit
              (filter (λ ke, key_kind ke.1 = Some kind ∧ has_ancestor ancestor ke.1)
                      (map_to_list (datastore w)))), w).

End Client.

(** ** Feature views and the registry *)

Inductive DataSource :=
| BigQuerySource (field_mapping : option (gmap string string))
| FileSource (field_mapping : option (gmap string string)).

Definition field_mapping (s : DataSource) : option (gmap string string) :=
  match s with BigQuerySource m | FileSource m => m end.

Record FeatureView := mk_FeatureView {
  fv_name : string;
  fv_entities : list string;
  fv_input : DataSource;
  materialization_intervals : list (datetime * datetime)
}.

Record EntityDef := mk_EntityDef {
  entity_name : string;
  join_key : string
}.

Record Registry := mk_Registry {
  reg_entities : gmap (string * string) EntityDef;
  reg_feature_views : gmap (string * string) FeatureView
}.

(** Modelled from the spec: [feast.registry.Registry] is not among the
    sources.  The spec: the registry resolves entity names to entity
    definitions, and persists a table definition with its updated
    materialization intervals. *)
Definition get_entity (registry : Registry) (name project : string) : Result EntityDef :=
  match reg_entities registry !! (project, name) with
  | Some e => Ok e
  | None => Raise (EntityNotFound name)
  end.

Definition apply_feature_view (registry : Registry) (feature_view : FeatureView)
    (project : string) : Registry :=
  mk_Registry (reg_entities registry)
              (<[(project, fv_name feature_view) := feature_view]> (reg_feature_views registry)).

(** The offline side of materialization, which the module only calls:
    column resolution, the offline store's pull, field mapping and the
    conversion of the pulled table to rows. *)
Class Offline (ValueProto : Type) := {
  ArrowTable : Type;
  _get_column_names :
    FeatureView → list EntityDef → list string * list string * string * option string;
  pull_latest_from_table_or_query :
    DataSource → list string → list string → string → option string →
    datetime → datetime → Result ArrowTable;
  _run_field_mapping : ArrowTable → gmap string string → ArrowTable;
  _convert_arrow_to_proto : ArrowTable → FeatureView → list string → list (Row ValueProto)
}.

(** ** The provider *)

Module Gcp.
Section Gcp.

Context {ValueProto : Type} `{!ProtoRuntime ValueProto}.

Import KeyCodec Batch.

Abbreviation Row := (Row ValueProto).
Abbreviation EntityKeyProto := (EntityKeyProto ValueProto).

(** [client.key("Project", project, "Table", table.name, "Row", document_id)] *)
Definition row_key (project : string) (table : FeatureView) (document_id : string) : Key :=
  [("Project", project); ("Table", fv_name table); ("Row", document_id)].

(** [client.key("Project", project, "Table", table.name)] *)
Definition table_key (project : string) (table : FeatureView) : Key :=
  [("Project", project); ("Table", fv_name table)].

(** A progress callback that notes each call in [progress_log]. *)
Definition recording_progress (n : Z) : Py unit :=
  λ w, (Ok tt, set_progress_log (progress_log w ++ [n]) w).

(** The properties [entity.update(dict(...))] sets from a row. *)
Definition entity_of_row (r : Row) : Entity :=
  mk_Entity (EntityKey_SerializeToString (row_entity_key r))
            (Value_SerializeToString <$> row_features r)
            (instant (make_tzaware (row_timestamp r)))
            (instant ∘ make_tzaware <$> row_created_ts r).

(** The two [continue] guards of the row loop, for a stored [entity]: its
    event timestamp is newer than the row's, or it is the same and both
    carry a created timestamp of which the stored one is newer. *)
Definition stored_is_fresher (entity : Entity) (r : Row) : bool :=
  if bool_decide (ent_event_ts entity > instant (make_tzaware (row_timestamp r)))
  then true
  else
    bool_decide (ent_event_ts entity = instant (make_tzaware (row_timestamp r)))
    && match row_created_ts r with
       | Some created_ts =>
           match ent_created_ts entity with
           | Some entity_created =>
               bool_decide (entity_created > instant (make_tzaware created_ts))
           | None => false
           end
       | None => false
       end.

(** Body of [for entity_key, features, timestamp, created_ts in data];
    [row_count] is the loop's counter.  A [continue] leaves the body before
    the put, the count and the progress call. *)
Definition write_row (project : string) (table : FeatureView)
    (progress : option (Z → Py unit)) (row_count : nat) (r : Row) : Py nat :=
  let document_id := compute_datastore_entity_id (row_entity_key r) in
  let key := row_key project table document_id in
  entity ← Client.get key;
  if match entity with
     | Some e => stored_is_fresher e r
     | None => false
     end
  then mret row_count
  else
    Client.put key (entity_of_row r);;
    match progress with Some f => f 1 | None => mret tt end;;
    mret (S row_count).

(** One pass of the [try] block: the transaction over all rows. *)
Definition write_attempt (project : string) (table : FeatureView)
    (data : list Row) (progress : option (Z → Py unit)) : Py nat :=
  Client.transaction (for_fold (write_row project table progress) 0%nat data).

Definition num_retries_on_conflict : nat := 3.

(** [for retry_number in range(num_retries_on_conflict)]: leave the loop
    after a pass that went well; on [Conflict] go round again, unless this
    was the last round, where it is raised again; other exceptions are not
    caught. *)
Fixpoint retry_loop (project : string) (table : FeatureView) (data : list Row)
    (progress : option (Z → Py unit)) (retry_numbers : list nat) : Py unit :=
  match retry_numbers with
  | [] => mret tt
  | retry_number :: rest =>
      go_on ← try_except
                (write_attempt project table data progress;; mret false)
                (λ e, match e with
                      | Conflict =>
                          if bool_decide (retry_number = (num_retries_on_conflict - 1)%nat)
                          then raise Conflict
                          else mret true
                      | _ => raise e
                      end);
      if go_on : bool then retry_loop project table data progress rest else mret tt
  end.

Definition _write_minibatch (project : string) (table : FeatureView)
    (data : list Row) (progress : option (Z → Py unit)) : Py unit :=
  retry_loop project table data progress (seq 0 num_retries_on_conflict).

(** [pool.map(f, items)] of a [ThreadPool], in the schedule where the
    tasks run one after the other: every task runs, also after one has
    raised, and the first exception is raised at the end. *)
Fixpoint pool_map {A B} (f : A → Py B) (items : list A) : Py (list B) :=
  match items with
  | [] => mret []
  | x :: rest =>
      λ w, match f x w with
           | (Ok b, w1) =>
               match pool_map f rest w1 with
               | (Ok bs, w2) => (Ok (b :: bs), w2)
               | (Raise e, w2) => (Raise e, w2)
               end
           | (Raise e, w1) => (Raise e, (pool_map f rest w1).2)
           end
  end.

Definition online_write_batch (project : string) (table : FeatureView)
    (data : list Row) (progress : option (Z → Py unit)) : Py unit :=
  pool_map (λ b, _write_minibatch project table b progress)
           (_to_minibatches default_batch_size data);;
  mret tt.

Definition ReadResult : Type := option Z * option (gmap string ValueProto).

(** Body of [for entity_key in entity_keys], with [result] the list built
    so far. *)
Definition read_entity (project : string) (table : FeatureView)
    (result : list ReadResult) (entity_key : EntityKeyProto) : Py (list ReadResult) :=
  let document_id := compute_datastore_entity_id entity_key in
  let key := row_key project table document_id in
  value ← Client.get key;
  match value with
  | Some v =>
      let res := Value_ParseFromString <$> ent_values v in
      mret (result ++ [(Some (ent_event_ts v), Some res)])
  | None => mret (result ++ [(None, None)])
  end.

Definition online_read (project : string) (table : FeatureView)
    (entity_keys : list EntityKeyProto) : Py (list ReadResult) :=
  for_fold (read_entity project table) [] entity_keys.

(** [_delete_all_values]: [while True] fetch a page of at most 1000 rows and
    delete each of them, until a fetch comes back empty.  [fuel] bounds the
    number of rounds; [None] is a loop that has not finished within it. *)
Definition page_size : nat := 1000.

Fixpoint _delete_all_values (fuel : nat) (key : Key) : Py (option unit) :=
  match fuel with
  | O => mret None
  | S fuel' =>
      entities ← Client.query_fetch "Row" key page_size;
      match entities with
      | [] => mret (Some tt)
      | _ =>
          for_fold (λ _ entity, Client.delete entity.1) tt entities;;
          _delete_all_values fuel' key
      end
  end.

(** ** Materialization *)

Context `{!Offline ValueProto}.

(** [for entity_name in feature_view.entities: entities.append(registry.get_entity(...))] *)
Fixpoint resolve_entities (registry : Registry) (project : string)
    (names : list string) : Result (list EntityDef) :=
  match names with
  | [] => Ok []
  | entity_name :: rest =>
      match get_entity registry entity_name project with
      | Raise e => Raise e
      | Ok entity =>
          match resolve_entities registry project rest with
          | Raise e => Raise e
          | Ok entities => Ok (entity :: entities)
          end
      end
  end.

(** [feature_view.materialization_intervals.append(interval)] *)
Definition append_interval (feature_view : FeatureView) (interval : datetime * datetime)
  : FeatureView :=
  mk_FeatureView (fv_name feature_view) (fv_entities feature_view) (fv_input feature_view)
                 (materialization_intervals feature_view ++ [interval]).

(** [materialize_single_feature_view].  The feature view and the registry are
    objects the caller keeps: the function returns what they are afterwards,
    next to the outcome and the world. *)
Definition materialize_single_feature_view (feature_view : FeatureView)
    (start_date end_date : datetime) (registry : Registry) (project : string)
  : World → Result unit * FeatureView * Registry * World :=
  λ w,
  match fv_input feature_view with
  | FileSource _ => (Raise AssertionError, feature_view, registry, w)
  | BigQuerySource _ =>
      match resolve_entities registry project (fv_entities feature_view) with
      | Raise e => (Raise e, feature_view, registry, w)
      | Ok entities =>
          let '(join_key_columns, feature_name_columns,
                event_timestamp_column, created_timestamp_column) :=
            _get_column_names feature_view entities in
          let start_date := make_tzaware start_date in
          let end_date := make_tzaware end_date in
          match pull_latest_from_table_or_query (fv_input feature_view)
                  join_key_columns feature_name_columns
                  event_timestamp_column created_timestamp_column
                  start_date end_date with
          | Raise e => (Raise e, feature_view, registry, w)
          | Ok table =>
              let table :=
                match field_mapping (fv_input feature_view) with
                | Some mapping => _run_field_mapping table mapping
                | None => table
                end in
              let join_keys := join_key <$> entities in
              let rows_to_write := _convert_arrow_to_proto table feature_view join_keys in
              match online_write_batch project feature_view rows_to_write None w with
              | (Raise e, w') => (Raise e, feature_view, registry, w')
              | (Ok _, w') =>
                  let feature_view' := append_interval feature_view (start_date, end_date) in
                  (Ok tt, feature_view',
                   apply_feature_view registry feature_view' project, w')
              end
          end
      end
  end.

End Gcp.
End Gcp.

(** ** Vocabulary of the statements

    Definitions that the theorems below are stated with: what a minibatch
    pass does to the store, what a read returns for a key, which entities a
    row query selects. *)

Module Spec.
Section Spec.

Context {ValueProto : Type} `{!ProtoRuntime ValueProto} `{!Offline ValueProto}.
Import KeyCodec Batch Gcp.

Abbreviation Row := (Row ValueProto).

(** [ceil(n / d)] on natural numbers. *)
Definition ceil_div (n d : nat) : nat := ((n + d - 1) / d)%nat.

(** The progress argument of a call: the recording callback, or [None]. *)
Definition progress_arg (supplied : bool) : option (Z → Py unit) :=
  if supplied then Some recording_progress else None.

Definition key_of_row (project : string) (table : FeatureView) (r : Row) : Key :=
  row_key project table (compute_datastore_entity_id (row_entity_key r)).

(** The row loop leaves a row out when the committed store [d] holds
    fresher data under the row's key. *)
Definition row_skipped (d : gmap Key Entity) (project : string) (table : FeatureView)
    (r : Row) : bool :=
  match d !! key_of_row project table r with
  | Some e => stored_is_fresher e r
  | None => false
  end.

Definition written_rows (d : gmap Key Entity) (project : string) (table : FeatureView)
    (data : list Row) : list Row :=
  filter (λ r, row_skipped d project table r = false) data.

Definition batch_mutations (d : gmap Key Entity) (project : string) (table : FeatureView)
    (data : list Row) : list Mutation :=
  (λ r, Upsert (key_of_row project table r) (entity_of_row r))
    <$> written_rows d project table data.

Definition ticks (supplied : bool) (n : nat) : list Z :=
  if supplied then replicate n 1 else [].

(** The world after one pass of the [try] block: the commit request has
    been made, and it applied the buffered puts unless the backend answered
    with an error. *)
Definition after_attempt (supplied : bool) (project : string) (table : FeatureView)
    (data : list Row) (w : World) : World :=
  mk_World (match commit_fault w (commits_seen w) with
            | None => apply_mutations (batch_mutations (datastore w) project table data)
                                      (datastore w)
            | Some _ => datastore w
            end)
           None (commit_fault w) (S (commits_seen w))
           (progress_log w
              ++ ticks supplied (length (written_rows (datastore w) project table data))).

(** Outcome and number of passes of the retry loop, from the backend's
    answers to the first, second and third commit request. *)
Definition retry_outcome (f0 f1 f2 : option PyExc) : Result unit * nat :=
  match f0 with
  | None => (Ok tt, 1%nat)
  | Some Conflict =>
      match f1 with
      | None => (Ok tt, 2%nat)
      | Some Conflict =>
          match f2 with
          | None => (Ok tt, 3%nat)
          | Some e => (Raise e, 3%nat)
          end
      | Some e => (Raise e, 2%nat)
      end
  | Some e => (Raise e, 1%nat)
  end.

Definition healthy (w : World) : Prop := ∀ n, commit_fault w n = None.

(** The instant of a row's event timestamp, as the row loop compares it. *)
Definition event_instant (r : Row) : Z := instant (make_tzaware (row_timestamp r)).

(** What a read returns for one key. *)
Definition read_one (d : gmap Key Entity) (project : string) (table : FeatureView)
    (entity_key : EntityKeyProto ValueProto) : ReadResult :=
  match d !! row_key project table (compute_datastore_entity_id entity_key) with
  | Some v => (Some (ent_event_ts v), Some (Value_ParseFromString <$> ent_values v))
  | None => (None, None)
  end.

(** What [query(kind="Row", ancestor=key)] selects. *)
Definition is_row_under (key : Key) (ke : Key * Entity) : Prop :=
  key_kind ke.1 = Some "Row" ∧ has_ancestor key ke.1.

#[export] Instance is_row_under_dec (key : Key) ke : Decision (is_row_under key ke).
Proof. unfold is_row_under. apply _. Defined.

Definition rows_under (key : Key) (d : gmap Key Entity) : list (Key * Entity) :=
  filter (is_row_under key) (map_to_list d).

Definition delete_keys (d : gmap Key Entity) (entities : list (Key * Entity))
  : gmap Key Entity :=
  foldl (λ d ke, delete ke.1 d) d entities.

Definition without_rows (key : Key) (d : gmap Key Entity) : gmap Key Entity :=
  filter (λ ke, ¬ is_row_under key ke) d.

(** The stages before the write: the rows that reach [online_write_batch],
    or the exception that ends the call before it. *)
Definition rows_to_write (feature_view : FeatureView) (start_date end_date : datetime)
    (registry : Registry) (project : string) : Result (list Row) :=
  match fv_input feature_view with
  | FileSource _ => Raise AssertionError
  | BigQuerySource _ =>
      match resolve_entities registry project (fv_entities feature_view) with
      | Raise e => Raise e
      | Ok entities =>
          let '(join_key_columns, feature_name_columns,
                event_timestamp_column, created_timestamp_column) :=
            _get_column_names feature_view entities in
          match pull_latest_from_table_or_query (fv_input feature_view)
                  join_key_columns feature_name_columns
                  event_timestamp_column created_timestamp_column
                  (make_tzaware start_date) (make_tzaware end_date) with
          | Raise e => Raise e
          | Ok table =>
              let table :=
                match field_mapping (fv_input feature_view) with
                | Some mapping => _run_field_mapping table mapping
                | None => table
                end in
              Ok (_convert_arrow_to_proto table feature_view (join_key <$> entities))
          end
      end
  end.

End Spec.
End Spec.

(** ** A small concrete runtime

    An instance of the external interface on integer values, and objects built
    on it, for instantiating the theorems below. *)

Module Demo.

Definition demo_hash (b : bytes) : bytes := take 16 (reverse b ++ replicate 16 x00).

Definition demo_parse (bs : bytes) : Z :=
  match bs with
  | b :: _ => Z.of_N (Byte.to_N b)
  | [] => 0
  end.

Definition runtime : ProtoRuntime Z := {|
  Value_SerializeToString z := KeyCodec.pack_u32 (Z.to_N z);
  Value_ParseFromString := demo_parse;
  EntityKey_SerializeToString k :=
    concat (KeyCodec.utf8 <$> join_keys k)
    ++ concat (KeyCodec.pack_u32 ∘ Z.to_N <$> entity_values k);
  value_type_tag _ := 4%N;
  value_payload z := KeyCodec.pack_u32 (Z.to_N z);
  mmh3_hash_bytes := demo_hash
|}.

Definition driver_stats : FeatureView :=
  mk_FeatureView "driver_stats" ["driver_id"] (BigQuerySource None) [].

Definition driver (id : Z) : EntityKeyProto Z := mk_EntityKey ["driver_id"] [id].

(** A row for driver [id] with one feature value, a naive event timestamp
    and an optional naive created timestamp. *)
Definition row (id value event_ts : Z) (created_ts : option Z) : Row Z :=
  mk_Row (driver id) {["value" := value]}
         (mk_datetime event_ts None)
         ((λ c, mk_datetime c None) <$> created_ts).

(** A client with an empty store whose backend answers commit requests as
    [faults] says. *)
Definition fresh_world (faults : nat → option PyExc) : World :=
  mk_World ∅ None faults 0 [].

Definition no_faults : nat → option PyExc := λ _, None.

(** The backend answers the first [n] commit requests with [e]. *)
Definition faults_then_ok (n : nat) (e : PyExc) : nat → option PyExc :=
  λ i, if decide (i < n)%nat then Some e else None.

Definition always (e : PyExc) : nat → option PyExc := λ _, Some e.

(** A client outside any transaction whose store holds [n] rows of the
    table [driver_stats], numbered from 0, and one row of another table. *)
Definition other_table : FeatureView :=
  mk_FeatureView "rider_stats" ["rider_id"] (BigQuerySource None) [].

Definition numbered_row (table : FeatureView) (i : nat) : Key * Entity :=
  (Gcp.row_key "p" table (pretty i), mk_Entity [] ∅ (Z.of_nat i) None).

Definition table_world (n : nat) : World :=
  mk_World (list_to_map (numbered_row other_table 0
                         :: (numbered_row driver_stats <$> seq 0 n)))
           None no_faults 0 [].

(** A store that holds driver 1 at event timestamp 100, and a minibatch of
    an older row of driver 1 and a row of driver 2. *)
Definition stored_row : Row Z := row 1 30 100 None.
Definition stale_and_new : list (Row Z) := [row 1 10 90 None; row 2 20 90 None].
Definition world_with_stored : World :=
  mk_World {[@Spec.key_of_row Z runtime "p" driver_stats stored_row
             := @Gcp.entity_of_row Z runtime stored_row]}
           None no_faults 0 [].

End Demo.


(** ** A small offline side

    An instance of the offline interface for the runtime above: the pulled
    table is a list of rows already, the rows whose event timestamp lies in
    the asked range. *)

Module DemoOffline.

Import Demo.

Definition source_rows : list (Row Z) :=
  [row 1 10 90 None; row 2 20 95 None; row 1 30 100 None].

Definition in_range (start_date end_date : datetime) (r : Row Z) : bool :=
  bool_decide (instant start_date ≤ instant (make_tzaware (row_timestamp r)))
  && bool_decide (instant (make_tzaware (row_timestamp r)) < instant end_date).

Definition offline : Offline Z := {|
  ArrowTable := list (Row Z);
  _get_column_names fv entities := (join_key <$> entities, ["value"], "ts", None);
  pull_latest_from_table_or_query source join_keys features ts created start_date end_date :=
    Ok (filter (λ r, in_range start_date end_date r = true) source_rows);
  _run_field_mapping table mapping := table;
  _convert_arrow_to_proto table fv join_keys := table
|}.

Definition registry : Registry :=
  mk_Registry {[("p", "driver_id") := mk_EntityDef "driver_id" "driver_id"]} ∅.

End DemoOffline.

(** ** Repository configuration ([repo_config.py])

    What [RepoConfig]'s root validator gets is the raw mapping read from
    [feature_store.yaml].  A value of an online store mapping is a scalar, or
    something compound that no field of an online store accepts. *)

Module Config.

Inductive YamlValue :=
| YStr (s : string)
| YInt (n : Z)
| YBool (b : bool)
| YNone
| YCompound.

#[export] Instance YamlValue_eq_dec : EqDecision YamlValue.
Proof. solve_decision. Defined.

(** [OnlineStoreConfig]: the union of the three declared classes; the [type]
    field of each is fixed by its [Literal]. *)
Inductive OnlineStoreConfig :=
| SqliteOnlineStoreConfig (path : string)
| DatastoreOnlineStoreConfig (project_id : option string)
| DynamoOnlineStoreConfig (project_id : option string).

(** A value of the top-level mapping: a scalar, a mapping of scalars, or an
    online store configuration object built before. *)
Inductive ConfigValue :=
| VScalar (v : YamlValue)
| VDict (d : gmap string YamlValue)
| VObject (o : OnlineStoreConfig).

#[export] Instance OnlineStoreConfig_eq_dec : EqDecision OnlineStoreConfig.
Proof. solve_decision. Defined.

#[export] Instance ConfigValue_eq_dec : EqDecision ConfigValue.
Proof. solve_decision. Defined.

Inductive ConfigExc :=
| CfgAssertionError
| CfgKeyError (key : string)
| CfgValidationError (loc : string).

(** A field annotated [StrictStr] with a default. *)
Definition strict_str_field (d : gmap string YamlValue) (name default : string)
  : option string :=
  match d !! name with
  | None => Some default
  | Some (YStr s) => Some s
  | Some _ => None
  end.

(** A field annotated [Optional[StrictStr] = None]. *)
Definition optional_strict_str_field (d : gmap string YamlValue) (name : string)
  : option (option string) :=
  match d !! name with
  | None | Some YNone => Some None
  | Some (YStr s) => Some (Some s)
  | Some _ => None
  end.

(** A field annotated [Literal[lit] = lit]. *)
Definition literal_field (d : gmap string YamlValue) (name lit : string) : bool :=
  match d !! name with
  | None => true
  | Some v => bool_decide (v = YStr lit)
  end.

(** [extra = "forbid"]: no key besides the declared fields. *)
Definition no_extra_fields (d : gmap string YamlValue) (fields : list string) : bool :=
  bool_decide ((dom d : gset string) ⊆ list_to_set fields).

(** [SqliteOnlineStoreConfig] called with the mapping's items as keyword
    arguments: the object, or [None] for a [ValidationError]. *)
Definition construct_sqlite (d : gmap string YamlValue) : option OnlineStoreConfig :=
  if no_extra_fields d ["type"; "path"] && literal_field d "type" "sqlite"
  then SqliteOnlineStoreConfig <$> strict_str_field d "path" "data/online.db"
  else None.

(** [DatastoreOnlineStoreConfig], likewise. *)
Definition construct_datastore (d : gmap string YamlValue) : option OnlineStoreConfig :=
  if no_extra_fields d ["type"; "project_id"] && literal_field d "type" "datastore"
  then DatastoreOnlineStoreConfig <$> optional_strict_str_field d "project_id"
  else None.

(** [DynamoOnlineStoreConfig], likewise. *)
Definition construct_dynamo (d : gmap string YamlValue) : option OnlineStoreConfig :=
  if no_extra_fields d ["type"; "project_id"] && literal_field d "type" "dynamo"
  then DynamoOnlineStoreConfig <$> optional_strict_str_field d "project_id"
  else None.

(** The default type the validator sets from the provider when the mapping
    has none: the chain of [if]/[elif] on [values["provider"]], in the
    source's order. *)
Definition impute_type (provider : ConfigValue) (online_store : gmap string YamlValue)
  : gmap string YamlValue :=
  if bool_decide ("type" ∈ (dom online_store : gset string)) then online_store
  else if bool_decide (provider = VScalar (YStr "local"))
       then <["type" := YStr "sqlite"]> online_store
  else if bool_decide (provider = VScalar (YStr "gcp"))
       then <["type" := YStr "datastore"]> online_store
  else if bool_decide (provider = VScalar (YStr "aws_dynamo"))
       then <["type" := YStr "datastore"]> online_store
  else if bool_decide (provider = VScalar (YStr "aws_dynamo"))
       then <["type" := YStr "dynamo"]> online_store
  else online_store.

(** [RepoConfig._validate_online_store_config]: what it prints, and the
    exception it raises or the mapping it returns. *)
Definition _validate_online_store_config (values : gmap string ConfigValue)
  : list string * (ConfigExc + gmap string ConfigValue) :=
  let values :=
    match values !! "online_store" with
    | None => <["online_store" := VDict ∅]> values
    | Some _ => values
    end in
  match values !! "online_store" with
  | Some (VDict online_store) =>
      match values !! "provider" with
      | None => ([], inl CfgAssertionError)
      | Some provider =>
          let online_store := impute_type provider online_store in
          let values := <["online_store" := VDict online_store]> values in
          match online_store !! "type" with
          | None => ([], inl (CfgKeyError "type"))
          | Some online_store_type =>
              if bool_decide (online_store_type
                              ∈ [YStr "datastore"; YStr "sqlite"; YStr "dynamo"])
              then
                if bool_decide (online_store_type = YStr "sqlite") then
                  match construct_sqlite online_store with
                  | Some _ => ([], inr values)
                  | None => ([], inl (CfgValidationError "online_store"))
                  end
                else if bool_decide (online_store_type = YStr "datastore") then
                  match construct_datastore online_store with
                  | Some _ => ([], inr values)
                  | None => ([], inl (CfgValidationError "online_store"))
                  end
                else if bool_decide (online_store_type = YStr "dynamo") then
                  match construct_dynamo online_store with
                  | Some _ => (["govno"], inr values)
                  | None => (["govno"], inl (CfgValidationError "online_store"))
                  end
                else ([], inl (CfgValidationError "online_store"))
              else ([], inl CfgAssertionError)
          end
      end
  | _ => ([], inr values)
  end.

(** The mapping under [online_store] has no [type] yet: it is absent, or a
    mapping without that key. *)
Definition type_unset (values : gmap string ConfigValue) : Prop :=
  match values !! "online_store" with
  | None => True
  | Some (VDict d) => d !! "type" = None
  | Some _ => False
  end.

(** The fields a validated online store mapping of type [t] may have. *)
Definition declared_fields (t : string) : list string :=
  if bool_decide (t = "sqlite") then ["type"; "path"] else ["type"; "project_id"].

End Config.

(** ** More concrete objects *)

Module DemoMore.

Import Demo Config.

(** A runtime on single bytes that parses what it serialises. *)
Definition byte_runtime : ProtoRuntime byte := {|
  Value_SerializeToString b := [b];
  Value_ParseFromString bs := default x00 (head bs);
  EntityKey_SerializeToString k := entity_values k;
  value_type_tag _ := 1%N;
  value_payload b := [b];
  mmh3_hash_bytes := demo_hash
|}.

Definition byte_row (id value : byte) (event_ts : Z) : Row byte :=
  mk_Row (mk_EntityKey ["driver_id"] [id]) {["value" := value]}
         (mk_datetime event_ts None) None.

(** A batch of three rows of three drivers. *)
Definition three_drivers : list (Row Z) :=
  [row 1 10 90 None; row 2 20 95 None; row 3 30 100 None].

(** The first [n] commit requests meet a conflict. *)
Definition conflicts (n : nat) : nat → option PyExc := faults_then_ok n Conflict.

(** [feature_store.yaml] with a project and a provider, and with an online
    store mapping added. *)
Definition yaml (provider : string) : gmap string ConfigValue :=
  {["project" := VScalar (YStr "demo"); "provider" := VScalar (YStr provider)]}.

Definition yaml_with_store (provider : string) (online_store : gmap string YamlValue)
  : gmap string ConfigValue :=
  <["online_store" := VDict online_store]> (yaml provider).

End DemoMore.

(** ** Infrastructure teardown *)

Module Infra.

Import Gcp.

(** Body of [for table in tables] in [teardown_infra]: delete the table's
    rows, then the entity that stands for the table.  [fuel] bounds the rounds
    of the inner loop; [None] is a call that has not finished within it. *)
Definition teardown_table (fuel : nat) (project : string) (table : FeatureView)
  : Py (option unit) :=
  done ← _delete_all_values fuel (table_key project table);
  match done with
  | None => mret None
  | Some _ =>
      Client.delete (table_key project table);;
      mret (Some tt)
  end.

(** [teardown_infra] *)
Fixpoint teardown_infra (fuel : nat) (project : string) (tables : list FeatureView)
  : Py (option unit) :=
  match tables with
  | [] => mret (Some tt)
  | table :: rest =>
      done ← teardown_table fuel project table;
      match done with
      | None => mret None
      | Some _ => teardown_infra fuel project rest
      end
  end.

End Infra.

(** ** More vocabulary of the statements *)

Module MoreSpec.

Import Gcp Spec.

(** No stored entity is lost from [d] to [d'], and none has an older event
    timestamp in [d']. *)
Definition never_older (d d' : gmap Key Entity) : Prop :=
  ∀ k e, d !! k = Some e → ∃ e', d' !! k = Some e' ∧ ent_event_ts e ≤ ent_event_ts e'.

(** [d'] is [d] at every key outside [keys]. *)
Definition same_outside (keys : list Key) (d d' : gmap Key Entity) : Prop :=
  ∀ k, k ∉ keys → d' !! k = d !! k.

(** What [teardown_infra] removes for one table: the table's own entity and
    the rows under it. *)
Definition torn_down (project : string) (table : FeatureView) (k : Key) : Prop :=
  k = table_key project table
  ∨ (key_kind k = Some "Row" ∧ has_ancestor (table_key project table) k).

#[export] Instance torn_down_dec project table k : Decision (torn_down project table k).
Proof. unfold torn_down. apply _. Defined.

(** The byte that two lowercase hexadecimal digits stand for. *)
Definition unhex_digit (c : ascii) : N :=
  let n := N_of_ascii c in if (n <? 58)%N then (n - 48)%N else (n - 87)%N.

Definition unhex_byte (cs : list ascii) : option byte :=
  match cs with
  | [hi; lo] => Byte.of_N (16 * unhex_digit hi + unhex_digit lo)
  | _ => None
  end.

(** [bytes.fromhex] on lowercase text: the bytes that a text of two digits
    per byte stands for, or nothing for a text of odd length. *)
Fixpoint unhex_chars (cs : list ascii) : option bytes :=
  match cs with
  | [] => Some []
  | hi :: lo :: rest =>
      match unhex_byte [hi; lo], unhex_chars rest with
      | Some b, Some bs => Some (b :: bs)
      | _, _ => None
      end
  | [_] => None
  end.

Definition unhex (s : string) : option bytes := unhex_chars (list_ascii_of_string s).

Definition torn_down_any (project : string) (tables : list FeatureView) (k : Key) : Prop :=
  Exists (λ table, torn_down project table k) tables.

Section WithProtos.

Context {ValueProto : Type} `{!ProtoRuntime ValueProto}.

(** What a pass of the [try] block, and then any number of passes, keep. *)
Definition write_keeps (project : string) (table : FeatureView)
    (data : list (Row ValueProto)) (w w' : World) : Prop :=
  never_older (datastore w) (datastore w')
  ∧ same_outside (key_of_row project table <$> data) (datastore w) (datastore w')
  ∧ commit_fault w' = commit_fault w
  ∧ txn w' = None.

End WithProtos.

End MoreSpec.

(** * Theorems *)

(** ** Minibatches *)

Module BatchFacts.
Section BatchFacts.

Context {A : Type}.
Import Batch Spec.

Lemma to_minibatches_unfold (bs : nat) (data : list A) :
  _to_minibatches bs data =
    match take bs data with
    | [] => []
    | batch => batch :: _to_minibatches bs (drop bs data)
    end.
Proof.
  funelim (_to_minibatches bs data).
  - by rewrite e.
  - by rewrite Hbatch.
Qed.

Lemma ceil_div_step (n d : nat) :
  (0 < d)%nat → (0 < n)%nat → ceil_div n d = S (ceil_div (n - d) d).
Proof.
  intros Hd Hn. unfold ceil_div.
  destruct (decide (d ≤ n)%nat) as [Hle|Hgt].
  - replace (n + d - 1)%nat with ((n - d + d - 1) + 1 * d)%nat by lia.
    rewrite Nat.div_add by lia. lia.
  - replace (n - d)%nat with 0%nat by lia.
    rewrite (Nat.div_small (0 + d - 1)) by lia.
    symmetry. apply (Nat.div_unique _ _ 1%nat (n - 1)%nat); lia.
Qed.

(** [ceil_div n d] is the least number of groups of [d] that hold [n]. *)
Lemma ceil_div_bounds (n d : nat) :
  (0 < d)%nat → (n ≤ ceil_div n d * d < n + d)%nat.
Proof.
  intros Hd. unfold ceil_div.
  pose proof (Nat.div_mod_eq (n + d - 1) d) as Hdm.
  pose proof (Nat.mod_upper_bound (n + d - 1) d ltac:(lia)) as Hub.
  nia.
Qed.

Lemma to_minibatches_spec (bs : nat) (data : list A) :
  (0 < bs)%nat →
  concat (_to_minibatches bs data) = data
  ∧ Forall (λ b, 0 < length b ≤ bs)%nat (_to_minibatches bs data)
  ∧ length (_to_minibatches bs data) = ceil_div (length data) bs.
Proof.
  intros Hbs. remember (length data) as n eqn:Hn. revert data Hn.
  induction n as [n IH] using lt_wf_ind. intros data Hn.
  rewrite to_minibatches_unfold.
  destruct (take bs data) as [|x batch] eqn:Htake.
  - assert (data = []) as ->.
    { destruct data; [done|]. destruct bs; [lia|done]. }
    subst n. simpl. repeat split; [constructor|].
    unfold ceil_div. simpl. symmetry. apply Nat.div_small. lia.
  - assert (0 < length data)%nat as Hpos.
    { destruct data; [by rewrite take_nil in Htake|simpl; lia]. }
    destruct (IH (length (drop bs data))
                 ltac:(rewrite length_drop; lia) (drop bs data) eq_refl)
      as (Hcat & Hall & Hlen).
    rewrite <- Htake. repeat split.
    + simpl. rewrite Hcat. apply take_drop.
    + constructor; [|done].
      rewrite Htake at 1. simpl. rewrite length_take. lia.
    + simpl. rewrite Hlen, length_drop, Hn. symmetry. by apply ceil_div_step.
Qed.

(** C8: [_to_minibatches] with its default batch size of 50 partitions [N]
    rows into exactly [ceil(N / 50)] minibatches, the least number of groups
    of 50 that hold [N] rows: the minibatches, one after the other, are the
    input rows in their order, none is empty, no minibatch has more than 50
    rows, and every minibatch but the last has exactly 50. *)
Theorem to_minibatches_count_and_bound (data : list A) :
  let batches := _to_minibatches default_batch_size data in
  length batches = ceil_div (length data) 50
  ∧ (length data ≤ length batches * 50 < length data + 50)%nat
  ∧ Forall (λ b, length b ≤ 50)%nat batches
  ∧ concat batches = data
  ∧ Forall (λ b, 0 < length b)%nat batches
  ∧ (∀ (i : nat) (b : list A),
       batches !! i = Some b → (S i < length batches)%nat → length b = 50%nat).
Proof.
  destruct (to_minibatches_spec default_batch_size data) as (Hcat & Hall & Hlen);
    [unfold default_batch_size; lia|].
  simpl. split; [done|]. split; [|split; [|split; [|split]]].
  - rewrite Hlen. apply ceil_div_bounds. lia.
  - eapply Forall_impl; [exact Hall|]. unfold default_batch_size. simpl. lia.
  - exact Hcat.
  - eapply Forall_impl; [exact Hall|]. simpl. lia.
  - clear Hcat Hall Hlen. remember (length data) as n eqn:Hn. revert data Hn.
    induction n as [n IH] using lt_wf_ind. intros data Hn i b.
    rewrite to_minibatches_unfold.
    destruct (take default_batch_size data) as [|x batch] eqn:Htake; [done|].
    assert (0 < length data)%nat as Hpos.
    { destruct data; [by rewrite take_nil in Htake|simpl; lia]. }
    destruct i as [|i]; simpl.
    + intros Hb Hmore. injection Hb as <-. rewrite <- Htake, length_take.
      destruct (_to_minibatches default_batch_size (drop default_batch_size data))
        as [|b' bs'] eqn:Hrest; [simpl in Hmore; lia|].
      rewrite to_minibatches_unfold in Hrest.
      destruct (take default_batch_size (drop default_batch_size data)) eqn:Htd;
        [done|].
      assert (0 < length (drop default_batch_size data))%nat as Hd.
      { destruct (drop default_batch_size data); [by rewrite take_nil in Htd|simpl; lia]. }
      rewrite length_drop in Hd. unfold default_batch_size in *. lia.
    + intros Hb Hmore.
      apply (IH (length (drop default_batch_size data))
                ltac:(rewrite length_drop; unfold default_batch_size; lia)
                (drop default_batch_size data) eq_refl i b Hb).
      lia.
Qed.

End BatchFacts.
End BatchFacts.

(** ** Hexadecimal text *)

Module HexFacts.
Import Hex.

Lemma length_chars_hex (bs : bytes) : length (chars_hex bs) = (2 * length bs)%nat.
Proof. induction bs as [|b bs IH]; simpl; lia. Qed.

Lemma length_string_of_list (cs : list ascii) :
  String.length (string_of_list_ascii cs) = length cs.
Proof. induction cs as [|c cs IH]; simpl; congruence. Qed.

Lemma length_hex (bs : bytes) : String.length (hex bs) = (2 * length bs)%nat.
Proof. unfold hex. by rewrite length_string_of_list, length_chars_hex. Qed.

#[local] Instance is_lower_hex_dec c : Decision (is_lower_hex c).
Proof. unfold is_lower_hex. apply _. Defined.

Lemma byte_hex_lower (b : byte) : Forall is_lower_hex (byte_hex b).
Proof. destruct b; apply (bool_decide_unpack _); vm_compute; reflexivity. Qed.

Lemma chars_hex_lower (bs : bytes) : Forall is_lower_hex (chars_hex bs).
Proof.
  induction bs as [|b bs IH]; cbn [chars_hex]; [constructor|].
  apply Forall_app. split; [apply byte_hex_lower | exact IH].
Qed.

Lemma hex_lower (bs : bytes) :
  Forall is_lower_hex (list_ascii_of_string (hex bs)).
Proof. unfold hex. rewrite list_ascii_of_string_of_list_ascii. apply chars_hex_lower. Qed.

Lemma unhex_byte_hex (b : byte) : MoreSpec.unhex_byte (byte_hex b) = Some b.
Proof. by destruct b. Qed.

Lemma chars_hex_inj (bs1 bs2 : bytes) : chars_hex bs1 = chars_hex bs2 → bs1 = bs2.
Proof.
  revert bs2. induction bs1 as [|b1 bs1 IH]; intros [|b2 bs2] Heq; try done.
  cbn [chars_hex] in Heq. unfold byte_hex in Heq. cbn [app] in Heq.
  injection Heq as Hhi Hlo Hrest.
  assert (MoreSpec.unhex_byte (byte_hex b1) = MoreSpec.unhex_byte (byte_hex b2)) as Hb
    by (unfold byte_hex; by rewrite Hhi, Hlo).
  rewrite !unhex_byte_hex in Hb. injection Hb as ->. f_equal. by apply IH.
Qed.

Lemma string_of_list_ascii_inj (l1 l2 : list ascii) :
  string_of_list_ascii l1 = string_of_list_ascii l2 → l1 = l2.
Proof.
  intros Heq. apply (f_equal list_ascii_of_string) in Heq.
  by rewrite !list_ascii_of_string_of_list_ascii in Heq.
Qed.

(** Reading the text back gives the bytes. *)
Lemma unhex_chars_hex (bs : bytes) : MoreSpec.unhex_chars (chars_hex bs) = Some bs.
Proof.
  induction bs as [|b bs IH]; [done|].
  cbn [chars_hex]. unfold byte_hex at 1. cbn [app MoreSpec.unhex_chars].
  change [hex_digit (Byte.to_N b / 16); hex_digit (Byte.to_N b mod 16)]
    with (byte_hex b).
  by rewrite unhex_byte_hex, IH.
Qed.

Lemma unhex_hex (bs : bytes) : MoreSpec.unhex (hex bs) = Some bs.
Proof.
  unfold MoreSpec.unhex, hex. rewrite list_ascii_of_string_of_list_ascii.
  apply unhex_chars_hex.
Qed.

(** The digits of a byte are the characters of [0123456789abcdef] at its
    high and its low half. *)
Lemma byte_hex_digits (b : byte) :
  lower_hex_alphabet !! N.to_nat (Byte.to_N b / 16) = Some (hex_digit (Byte.to_N b / 16))
  ∧ lower_hex_alphabet !! N.to_nat (Byte.to_N b mod 16)
    = Some (hex_digit (Byte.to_N b mod 16)).
Proof. by destruct b. Qed.

Lemma chars_hex_lookup (bs : bytes) (i : nat) (b : byte) :
  bs !! i = Some b →
  chars_hex bs !! (2 * i)%nat = Some (hex_digit (Byte.to_N b / 16))
  ∧ chars_hex bs !! (2 * i + 1)%nat = Some (hex_digit (Byte.to_N b mod 16)).
Proof.
  revert i. induction bs as [|b' bs IH]; intros [|i] Hi; try done.
  - injection Hi as ->. done.
  - cbn [chars_hex]. unfold byte_hex. cbn [app].
    replace (2 * S i)%nat with (S (S (2 * i))) by lia.
    replace (S (S (2 * i)) + 1)%nat with (S (S (2 * i + 1))) by lia.
    cbn [lookup list_lookup]. by apply IH.
Qed.

End HexFacts.

(** ** Key codec *)

Module KeyCodecFacts.
Section KeyCodecFacts.

Context {ValueProto : Type} `{!ProtoRuntime ValueProto}.
Import KeyCodec.

#[local] Instance name_le_trans : Transitive (@name_le ValueProto).
Proof. intros p q r. unfold name_le. apply transitivity. Qed.

#[local] Instance name_le_total : Total (@name_le ValueProto).
Proof. intros p q. unfold name_le. apply total, _. Qed.

(** Pairs with pairwise different names have one name-sorted arrangement. *)
Lemma sorted_pairs_unique (l1 l2 : list (string * ValueProto)) :
  NoDup l1.*1 → l1 ≡ₚ l2 →
  merge_sort name_le l1 = merge_sort name_le l2.
Proof.
  intros Hnd Hperm.
  apply (StronglySorted_unique_strong name_le).
  - intros [n1 v1] [n2 v2] Hin1 Hin2 Hle1 Hle2.
    unfold name_le in *. simpl in *.
    assert (n1 = n2) as -> by (by apply (anti_symm String.le)).
    f_equal.
    rewrite merge_sort_Permutation in Hin1.
    rewrite merge_sort_Permutation, <- Hperm in Hin2.
    clear -Hnd Hin1 Hin2.
    induction l1 as [|[n v] l1 IH]; [by apply elem_of_nil in Hin1|].
    simpl in Hnd. apply NoDup_cons in Hnd as [Hn Hnd].
    apply elem_of_cons in Hin1 as [Heq1|Hin1];
      apply elem_of_cons in Hin2 as [Heq2|Hin2].
    + congruence.
    + exfalso. apply Hn. apply list_elem_of_fmap. exists (n2, v2).
      split; [simpl; congruence|done].
    + exfalso. apply Hn. apply list_elem_of_fmap. exists (n2, v1).
      split; [simpl; congruence|done].
    + by apply IH.
  - apply StronglySorted_merge_sort; apply _.
  - apply StronglySorted_merge_sort; apply _.
  - by rewrite !merge_sort_Permutation.
Qed.

Lemma NoDup_zip_fst {B} (names : list string) (vs : list B) :
  NoDup names → NoDup (zip names vs).*1.
Proof.
  intros Hnd. revert vs. induction Hnd as [|n names Hn Hnd IH]; intros [|v vs];
    simpl; try constructor; [|by apply IH].
  intros Hin. apply Hn. apply list_elem_of_fmap in Hin as ([n' v'] & -> & Hin).
  simpl. by apply elem_of_zip_l in Hin.
Qed.

Lemma serialize_entity_key_order_independent (K1 K2 : EntityKeyProto ValueProto) :
  NoDup (join_keys K1) →
  zip (join_keys K1) (entity_values K1) ≡ₚ zip (join_keys K2) (entity_values K2) →
  serialize_entity_key K1 = serialize_entity_key K2.
Proof.
  intros Hnd Hperm. unfold serialize_entity_key.
  by rewrite (sorted_pairs_unique _ _ (NoDup_zip_fst _ _ Hnd) Hperm).
Qed.

(** C3: two entity keys with the same (join-key name, value) pairs, in any
    order, get the same Datastore entity id, and the id is the 128-bit hash
    of the serialized key as lowercase hexadecimal text: always 32
    characters out of [0-9a-f], two for each of the 16 bytes of the hash in
    their order, the character of [0123456789abcdef] at the byte's high half
    and then the one at its low half; read back as hexadecimal, the id gives
    the hash.  Join-key names are unique within a key; [mmh3.hash_bytes]
    returns 16 bytes. *)
Theorem compute_datastore_entity_id_deterministic (K1 K2 : EntityKeyProto ValueProto) :
  (∀ b, length (mmh3_hash_bytes b) = 16%nat) →
  NoDup (join_keys K1) →
  zip (join_keys K1) (entity_values K1) ≡ₚ zip (join_keys K2) (entity_values K2) →
  serialize_entity_key K1 = serialize_entity_key K2
  ∧ compute_datastore_entity_id K1 = compute_datastore_entity_id K2
  ∧ compute_datastore_entity_id K1
    = Hex.hex (mmh3_hash_bytes (serialize_entity_key K1))
  ∧ String.length (compute_datastore_entity_id K1) = 32%nat
  ∧ String.length (compute_datastore_entity_id K2) = 32%nat
  ∧ Forall Hex.is_lower_hex (list_ascii_of_string (compute_datastore_entity_id K1))
  ∧ (∀ (i : nat) (b : byte),
       mmh3_hash_bytes (serialize_entity_key K1) !! i = Some b →
       list_ascii_of_string (compute_datastore_entity_id K1) !! (2 * i)%nat
       = list_ascii_of_string "0123456789abcdef" !! N.to_nat (Byte.to_N b / 16)
       ∧ list_ascii_of_string (compute_datastore_entity_id K1) !! (2 * i + 1)%nat
         = list_ascii_of_string "0123456789abcdef" !! N.to_nat (Byte.to_N b mod 16))
  ∧ MoreSpec.unhex (compute_datastore_entity_id K1)
    = Some (mmh3_hash_bytes (serialize_entity_key K1))
  ∧ MoreSpec.unhex (compute_datastore_entity_id K2)
    = Some (mmh3_hash_bytes (serialize_entity_key K1)).
Proof.
  intros Hlen Hnd Hperm.
  pose proof (serialize_entity_key_order_independent K1 K2 Hnd Hperm) as Hser.
  unfold compute_datastore_entity_id.
  rewrite !HexFacts.length_hex, !HexFacts.unhex_hex, !Hlen, Hser.
  repeat split; try done; try apply HexFacts.hex_lower.
  - unfold Hex.hex. rewrite list_ascii_of_string_of_list_ascii.
    destruct (HexFacts.chars_hex_lookup _ _ _ H) as [-> _].
    symmetry. apply HexFacts.byte_hex_digits.
  - unfold Hex.hex. rewrite list_ascii_of_string_of_list_ascii.
    destruct (HexFacts.chars_hex_lookup _ _ _ H) as [_ ->].
    symmetry. apply HexFacts.byte_hex_digits.
Qed.

End KeyCodecFacts.
End KeyCodecFacts.

(** ** The write path *)

Module WriteFacts.
Section WriteFacts.

Context {ValueProto : Type} `{!ProtoRuntime ValueProto}.
Import KeyCodec Batch Gcp Spec.

Abbreviation Row := (Row ValueProto).

Lemma ticks_app supplied n m :
  ticks supplied (n + m) = ticks supplied n ++ ticks supplied m.
Proof. destruct supplied; simpl; [apply replicate_add|done]. Qed.

Lemma write_row_spec supplied project table n r w buffered :
  txn w = Some buffered →
  write_row project table (progress_arg supplied) n r w =
    if row_skipped (datastore w) project table r
    then (Ok n, w)
    else (Ok (S n),
          mk_World (datastore w)
                   (Some (buffered ++ [Upsert (key_of_row project table r) (entity_of_row r)]))
                   (commit_fault w) (commits_seen w)
                   (progress_log w ++ ticks supplied 1)).
Proof.
  intros Htxn. unfold write_row, row_skipped, key_of_row.
  unfold mbind, Py_bind, bind, Client.get. simpl.
  destruct (match datastore w !! _ with Some e => _ | None => false end); [done|].
  unfold Client.put, Client.mutate. rewrite Htxn.
  destruct supplied; simpl; unfold set_txn, set_progress_log; simpl;
    [done|]. rewrite app_nil_r. by destruct w.
Qed.

Lemma write_rows_spec supplied project table data : ∀ n w buffered,
  txn w = Some buffered →
  let written := written_rows (datastore w) project table data in
  for_fold (write_row project table (progress_arg supplied)) n data w =
    (Ok (n + length written)%nat,
     mk_World (datastore w)
              (Some (buffered ++ batch_mutations (datastore w) project table data))
              (commit_fault w) (commits_seen w)
              (progress_log w ++ ticks supplied (length written))).
Proof.
  induction data as [|r data IH]; intros n w buffered Htxn; simpl.
  - unfold batch_mutations, written_rows, ret. simpl.
    rewrite Nat.add_0_r, !app_nil_r.
    destruct supplied; simpl; rewrite ?app_nil_r; destruct w; simpl in *; by subst.
  - unfold mbind, Py_bind, bind.
    rewrite (write_row_spec _ _ _ _ _ _ _ Htxn).
    unfold batch_mutations, written_rows. rewrite filter_cons.
    destruct (row_skipped (datastore w) project table r) eqn:Hskip.
    + rewrite decide_False by done.
      by rewrite (IH n w buffered Htxn).
    + rewrite decide_True by done.
      erewrite IH by reflexivity. simpl.
      rewrite <- !app_assoc. simpl.
      replace (S (length (filter (λ r0, row_skipped (datastore w) project table r0 = false) data)))
        with (1 + length (filter (λ r0, row_skipped (datastore w) project table r0 = false) data))%nat
        by done.
      rewrite ticks_app. unfold written_rows, batch_mutations.
      do 2 f_equal. lia.
Qed.

Lemma write_attempt_spec supplied project table data w :
  write_attempt project table data (progress_arg supplied) w =
    (match commit_fault w (commits_seen w) with
     | None => Ok (length (written_rows (datastore w) project table data))
     | Some e => Raise e
     end,
     after_attempt supplied project table data w).
Proof.
  unfold write_attempt, Client.transaction.
  rewrite (write_rows_spec supplied project table data 0 (set_txn (Some []) w) [])
    by reflexivity.
  unfold Client.commit, after_attempt. simpl.
  by destruct (commit_fault w (commits_seen w)).
Qed.

Lemma write_minibatch_spec supplied project table data w :
  let c := commits_seen w in
  let outcome := retry_outcome (commit_fault w c) (commit_fault w (S c))
                               (commit_fault w (S (S c))) in
  _write_minibatch project table data (progress_arg supplied) w =
    (outcome.1, Nat.iter outcome.2 (after_attempt supplied project table data) w).
Proof.
  unfold _write_minibatch, num_retries_on_conflict. simpl seq.
  cbn [retry_loop]. unfold mbind, Py_bind, bind, try_except.
  rewrite write_attempt_spec. simpl.
  destruct (commit_fault w (commits_seen w)) as [[]|] eqn:F0; simpl; try done.
  rewrite write_attempt_spec. simpl. rewrite F0. simpl.
  destruct (commit_fault w (S (commits_seen w))) as [[]|] eqn:F1; simpl;
    rewrite ?F0; simpl; rewrite ?F1; simpl; try done.
  rewrite write_attempt_spec. simpl. rewrite F0, F1. simpl.
  destruct (commit_fault w (S (S (commits_seen w)))) as [[]|] eqn:F2; simpl;
    rewrite ?F0; simpl; rewrite ?F1; simpl; rewrite ?F2; simpl; done.
Qed.

Lemma to_minibatches_single (data : list Row) :
  (0 < length data ≤ default_batch_size)%nat →
  _to_minibatches default_batch_size data = [data].
Proof.
  intros Hlen. rewrite BatchFacts.to_minibatches_unfold.
  rewrite take_ge, drop_ge by lia.
  destruct data as [|r data]; [simpl in Hlen; lia|].
  by rewrite BatchFacts.to_minibatches_unfold.
Qed.

(** A write of at most 50 rows is one minibatch. *)
Lemma online_write_batch_single_minibatch project table (data : list Row) progress w :
  (0 < length data ≤ default_batch_size)%nat →
  online_write_batch project table data progress w =
    _write_minibatch project table data progress w.
Proof.
  intros Hlen. unfold online_write_batch. rewrite to_minibatches_single by done.
  unfold mbind, Py_bind, bind. simpl.
  destruct (_write_minibatch project table data progress w) as [[[]|e] w1]; done.
Qed.

Lemma after_attempt_healthy supplied project table data w :
  healthy w → healthy (after_attempt supplied project table data w).
Proof. intros Hw n. apply Hw. Qed.

(** On a backend that answers no commit with an error, writing one row
    either leaves the store as it is (the row was skipped) or puts the
    row's entity under the row's key. *)
Lemma write_one_row supplied project table (r : Row) w :
  healthy w →
  let w' := (online_write_batch project table [r] (progress_arg supplied) w).2 in
  (online_write_batch project table [r] (progress_arg supplied) w).1 = Ok tt
  ∧ healthy w'
  ∧ datastore w' =
      if row_skipped (datastore w) project table r then datastore w
      else <[key_of_row project table r := entity_of_row r]> (datastore w).
Proof.
  intros Hw.
  rewrite online_write_batch_single_minibatch by (unfold default_batch_size; simpl; lia).
  rewrite write_minibatch_spec. rewrite !Hw. simpl.
  split; [done|]. split; [by apply after_attempt_healthy|].
  rewrite Hw. unfold batch_mutations, written_rows. rewrite filter_cons, filter_nil.
  destruct (decide (row_skipped (datastore w) project table r = false)) as [Hs|Hs].
  - by rewrite Hs.
  - apply not_false_is_true in Hs. by rewrite Hs.
Qed.

Lemma fresher_when_newer (e : Entity) (r : Row) :
  ent_event_ts e > event_instant r → stored_is_fresher e r = true.
Proof.
  intros Hgt. unfold stored_is_fresher. fold (event_instant r).
  by rewrite bool_decide_eq_true_2.
Qed.

Lemma not_fresher_when_older (e : Entity) (r : Row) :
  ent_event_ts e < event_instant r → stored_is_fresher e r = false.
Proof.
  intros Hlt. unfold stored_is_fresher. fold (event_instant r).
  rewrite bool_decide_eq_false_2 by lia.
  rewrite bool_decide_eq_false_2 by lia. done.
Qed.

Lemma fresher_on_tie (e : Entity) (r : Row) (created_ts : datetime) (entity_created : Z) :
  ent_event_ts e = event_instant r →
  row_created_ts r = Some created_ts →
  ent_created_ts e = Some entity_created →
  stored_is_fresher e r = bool_decide (entity_created > instant (make_tzaware created_ts)).
Proof.
  intros Heq Hc He. unfold stored_is_fresher. fold (event_instant r).
  rewrite bool_decide_eq_false_2 by lia.
  rewrite bool_decide_eq_true_2 by done. by rewrite Hc, He.
Qed.

Lemma row_skipped_insert d project table (r r' : Row) :
  row_entity_key r' = row_entity_key r →
  row_skipped (<[key_of_row project table r' := entity_of_row r']> d) project table r
  = stored_is_fresher (entity_of_row r') r.
Proof.
  intros Hk. unfold row_skipped, key_of_row. rewrite Hk. by rewrite lookup_insert_eq.
Qed.

Lemma row_skipped_none d project table (r : Row) :
  (∀ e, d !! key_of_row project table r = Some e → stored_is_fresher e r = false) →
  row_skipped d project table r = false.
Proof.
  intros Hd. unfold row_skipped.
  destruct (d !! key_of_row project table r) as [e|] eqn:He; [by apply Hd|done].
Qed.

(** What two one-row writes in a row leave in the store when the second
    row to win is [r2]: used for both write orders. *)
Lemma two_writes_r2_wins supplied project table (r1 r2 : Row) w :
  row_entity_key r1 = row_entity_key r2 →
  stored_is_fresher (entity_of_row r1) r2 = false →
  stored_is_fresher (entity_of_row r2) r1 = true →
  healthy w →
  (∀ e, datastore w !! key_of_row project table r2 = Some e
        → stored_is_fresher e r2 = false) →
  let write r w := online_write_batch project table [r] (progress_arg supplied) w in
  let stored := <[key_of_row project table r2 := entity_of_row r2]> (datastore w) in
  ((write r1 w).1 = Ok tt ∧ (write r2 (write r1 w).2).1 = Ok tt
   ∧ datastore (write r2 (write r1 w).2).2 = stored)
  ∧ ((write r2 w).1 = Ok tt ∧ (write r1 (write r2 w).2).1 = Ok tt
     ∧ datastore (write r1 (write r2 w).2).2 = stored).
Proof.
  intros Hkey H12 H21 Hw Hinit. simpl.
  assert (key_of_row project table r1 = key_of_row project table r2) as Hk
    by (unfold key_of_row; by rewrite Hkey).
  split.
  - destruct (write_one_row supplied project table r1 w Hw) as (Hr1 & Hw1 & Hd1).
    destruct (write_one_row supplied project table r2 _ Hw1) as (Hr2 & _ & Hd2).
    split; [done|]. split; [done|]. rewrite Hd2, Hd1.
    destruct (row_skipped (datastore w) project table r1).
    + by rewrite (row_skipped_none _ _ _ _ Hinit).
    + rewrite row_skipped_insert, H12 by done. rewrite Hk. apply insert_insert_eq.
  - destruct (write_one_row supplied project table r2 w Hw) as (Hr2 & Hw2 & Hd2).
    destruct (write_one_row supplied project table r1 _ Hw2) as (Hr1 & _ & Hd1).
    split; [done|]. split; [done|]. rewrite Hd1, Hd2.
    rewrite (row_skipped_none _ _ _ _ Hinit).
    by rewrite row_skipped_insert, H21.
Qed.

Lemma not_fresher_on_plain_tie (e : Entity) (r : Row) :
  ent_event_ts e = event_instant r →
  (row_created_ts r = None ∨ ent_created_ts e = None
   ∨ ∃ created_ts entity_created,
       row_created_ts r = Some created_ts ∧ ent_created_ts e = Some entity_created
       ∧ entity_created ≤ instant (make_tzaware created_ts)) →
  stored_is_fresher e r = false.
Proof.
  intros Heq Hcase. unfold stored_is_fresher. fold (event_instant r).
  rewrite bool_decide_eq_false_2 by lia.
  rewrite bool_decide_eq_true_2 by done. simpl.
  destruct Hcase as [->|[Hn|(c & ec & -> & -> & Hle)]]; [done| |].
  - rewrite Hn. by destruct (row_created_ts r).
  - apply bool_decide_eq_false_2. lia.
Qed.

(** C1: two rows of one entity key, [r1] with the older event timestamp,
    written one after the other through [online_write_batch] in either
    order, leave [r2] stored (nothing fresher than [r2] being stored before).
    A stored record with a strictly newer event timestamp than the incoming
    row is not overwritten.  Otherwise the incoming row's key bytes, feature
    mapping, event timestamp and created timestamp replace what was stored:
    where there is no stored record; where the stored event timestamp is
    strictly older; and where it is the same and the row or the stored record
    has no created timestamp, or the stored created timestamp is not the
    newer one.  (Left is the same event timestamp with a newer stored created
    timestamp, the tie-break of C2.) *)
Theorem freshness_monotonicity supplied project table (r1 r2 : Row) (w : World) :
  row_entity_key r1 = row_entity_key r2 →
  event_instant r1 < event_instant r2 →
  healthy w →
  (∀ e, datastore w !! key_of_row project table r2 = Some e
        → stored_is_fresher e r2 = false) →
  let write r w := online_write_batch project table [r] (progress_arg supplied) w in
  let stored := <[key_of_row project table r2 := entity_of_row r2]> (datastore w) in
  ((write r1 w).1 = Ok tt ∧ (write r2 (write r1 w).2).1 = Ok tt
   ∧ datastore (write r2 (write r1 w).2).2 = stored)
  ∧ ((write r2 w).1 = Ok tt ∧ (write r1 (write r2 w).2).1 = Ok tt
     ∧ datastore (write r1 (write r2 w).2).2 = stored)
  ∧ stored !! key_of_row project table r2
    = Some (mk_Entity (EntityKey_SerializeToString (row_entity_key r2))
                      (Value_SerializeToString <$> row_features r2)
                      (event_instant r2)
                      (instant ∘ make_tzaware <$> row_created_ts r2))
  ∧ (∀ (r : Row) (e : Entity) (v : World),
       healthy v →
       datastore v !! key_of_row project table r = Some e →
       ent_event_ts e > event_instant r →
       (write r v).1 = Ok tt ∧ datastore (write r v).2 = datastore v)
  ∧ (∀ (r : Row) (v : World),
       healthy v →
       (datastore v !! key_of_row project table r = None
        ∨ ∃ e, datastore v !! key_of_row project table r = Some e
               ∧ ent_event_ts e < event_instant r) →
       (write r v).1 = Ok tt
       ∧ datastore (write r v).2
         = <[key_of_row project table r := entity_of_row r]> (datastore v))
  ∧ (∀ (r : Row) (e : Entity) (v : World),
       healthy v →
       datastore v !! key_of_row project table r = Some e →
       ent_event_ts e = event_instant r →
       (row_created_ts r = None ∨ ent_created_ts e = None
        ∨ ∃ created_ts entity_created,
            row_created_ts r = Some created_ts ∧ ent_created_ts e = Some entity_created
            ∧ entity_created ≤ instant (make_tzaware created_ts)) →
       (write r v).1 = Ok tt
       ∧ datastore (write r v).2
         = <[key_of_row project table r := entity_of_row r]> (datastore v))
  ∧ (∀ (r : Row) (v : World),
       <[key_of_row project table r := entity_of_row r]> (datastore v)
       !! [("Project", project); ("Table", fv_name table);
           ("Row", compute_datastore_entity_id (row_entity_key r))]
       = Some (mk_Entity (EntityKey_SerializeToString (row_entity_key r))
                         (Value_SerializeToString <$> row_features r)
                         (instant (make_tzaware (row_timestamp r)))
                         (match row_created_ts r with
                          | Some created_ts => Some (instant (make_tzaware created_ts))
                          | None => None
                          end))).
Proof.
  intros Hkey Hlt Hw Hinit. simpl.
  destruct (two_writes_r2_wins supplied project table r1 r2 w Hkey) as [H12 H21];
    try done.
  { apply not_fresher_when_older. simpl. exact Hlt. }
  { apply fresher_when_newer. simpl. fold (event_instant r2). lia. }
  split; [exact H12|]. split; [exact H21|]. split; [apply lookup_insert_eq|].
  split; [|split; [|split]].
  - intros r e v Hv He Hgt.
    destruct (write_one_row supplied project table r v Hv) as (Hok & _ & Hd).
    split; [done|]. rewrite Hd. unfold row_skipped. rewrite He.
    by rewrite fresher_when_newer.
  - intros r v Hv Hcase.
    destruct (write_one_row supplied project table r v Hv) as (Hok & _ & Hd).
    split; [done|]. rewrite Hd. unfold row_skipped.
    destruct Hcase as [->|(e & -> & Hlt')]; [done|].
    by rewrite not_fresher_when_older.
  - intros r e v Hv He Heq Hcase.
    destruct (write_one_row supplied project table r v Hv) as (Hok & _ & Hd).
    split; [done|]. rewrite Hd. unfold row_skipped. rewrite He.
    by rewrite not_fresher_on_plain_tie.
  - intros r v.
    change [("Project", project); ("Table", fv_name table);
            ("Row", compute_datastore_entity_id (row_entity_key r))]
      with (key_of_row project table r).
    rewrite lookup_insert_eq. unfold entity_of_row.
    by destruct (row_created_ts r).
Qed.

(** C2: two rows of one entity key with the same event timestamp and
    created timestamps [t_a < t_b], written one after the other in either
    order, leave the row with [t_b] stored (nothing fresher than it being
    stored before).  When the stored record and the incoming row have the
    same event timestamp and both carry a created timestamp, the row is
    skipped exactly when the stored created timestamp is strictly newer.
    What a row with a created timestamp that is not skipped leaves at its
    key path is its serialized key, its serialized feature values, its event
    timestamp and its created timestamp. *)
Theorem created_tie_break supplied project table (ra rb : Row) (ta tb : datetime)
    (w : World) :
  row_entity_key ra = row_entity_key rb →
  event_instant ra = event_instant rb →
  row_created_ts ra = Some ta →
  row_created_ts rb = Some tb →
  instant (make_tzaware ta) < instant (make_tzaware tb) →
  healthy w →
  (∀ e, datastore w !! key_of_row project table rb = Some e
        → stored_is_fresher e rb = false) →
  let write r w := online_write_batch project table [r] (progress_arg supplied) w in
  let stored := <[key_of_row project table rb := entity_of_row rb]> (datastore w) in
  ((write ra w).1 = Ok tt ∧ (write rb (write ra w).2).1 = Ok tt
   ∧ datastore (write rb (write ra w).2).2 = stored)
  ∧ ((write rb w).1 = Ok tt ∧ (write ra (write rb w).2).1 = Ok tt
     ∧ datastore (write ra (write rb w).2).2 = stored)
  ∧ (∀ (r : Row) (e : Entity) (created_ts : datetime) (entity_created : Z) (v : World),
       healthy v →
       datastore v !! key_of_row project table r = Some e →
       ent_event_ts e = event_instant r →
       row_created_ts r = Some created_ts →
       ent_created_ts e = Some entity_created →
       (write r v).1 = Ok tt
       ∧ row_skipped (datastore v) project table r
         = bool_decide (entity_created > instant (make_tzaware created_ts))
       ∧ datastore (write r v).2
         = if bool_decide (entity_created > instant (make_tzaware created_ts))
           then datastore v
           else <[key_of_row project table r := entity_of_row r]> (datastore v))
  ∧ (∀ (r : Row) (created_ts : datetime) (v : World),
       row_created_ts r = Some created_ts →
       <[key_of_row project table r := entity_of_row r]> (datastore v)
       !! [("Project", project); ("Table", fv_name table);
           ("Row", compute_datastore_entity_id (row_entity_key r))]
       = Some (mk_Entity (EntityKey_SerializeToString (row_entity_key r))
                         (Value_SerializeToString <$> row_features r)
                         (instant (make_tzaware (row_timestamp r)))
                         (Some (instant (make_tzaware created_ts))))).
Proof.
  intros Hkey Hev Hta Htb Hlt Hw Hinit. simpl.
  destruct (two_writes_r2_wins supplied project table ra rb w Hkey) as [Hab Hba];
    try done.
  { rewrite (fresher_on_tie _ rb tb (instant (make_tzaware ta))); simpl;
      [|done|done|by rewrite Hta].
    apply bool_decide_eq_false_2. lia. }
  { rewrite (fresher_on_tie _ ra ta (instant (make_tzaware tb))); simpl;
      [|done|done|by rewrite Htb].
    apply bool_decide_eq_true_2. lia. }
  split; [exact Hab|]. split; [exact Hba|]. split.
  - intros r e created_ts entity_created v Hv He Heq Hc Hec.
    destruct (write_one_row supplied project table r v Hv) as (Hok & _ & Hd).
    assert (row_skipped (datastore v) project table r
            = bool_decide (entity_created > instant (make_tzaware created_ts))) as Hskip.
    { unfold row_skipped. rewrite He. by apply fresher_on_tie. }
    split; [done|]. split; [done|]. by rewrite Hd, Hskip.
  - intros r created_ts v Hc.
    change [("Project", project); ("Table", fv_name table);
            ("Row", compute_datastore_entity_id (row_entity_key r))]
      with (key_of_row project table r).
    rewrite lookup_insert_eq. unfold entity_of_row. by rewrite Hc.
Qed.

Lemma after_attempt_fault supplied project table data w e :
  commit_fault w (commits_seen w) = Some e →
  datastore (after_attempt supplied project table data w) = datastore w.
Proof. intros Hf. unfold after_attempt. simpl. by rewrite Hf. Qed.

(** C5: the backend's answers to the commit requests of a minibatch decide
    how [_write_minibatch] ends.  Conflict, conflict, then success: the
    minibatch is committed and the call returns, after three passes.
    Conflict three times: the third conflict is raised, after exactly three
    passes, nothing committed.  Another error at some pass, after conflicts
    only: it is raised at once, that pass being the last, nothing
    committed. *)
Theorem write_minibatch_retry_bound supplied project table (data : list Row) (w : World) :
  let c := commits_seen w in
  let run := _write_minibatch project table data (progress_arg supplied) w in
  (commit_fault w c = Some Conflict →
   commit_fault w (c + 1)%nat = Some Conflict →
   commit_fault w (c + 2)%nat = None →
   run.1 = Ok tt
   ∧ datastore run.2
     = apply_mutations (batch_mutations (datastore w) project table data) (datastore w)
   ∧ commits_seen run.2 = (c + 3)%nat)
  ∧ ((∀ i, (i < 3)%nat → commit_fault w (c + i)%nat = Some Conflict) →
     run.1 = Raise Conflict
     ∧ commits_seen run.2 = (c + 3)%nat
     ∧ datastore run.2 = datastore w)
  ∧ (∀ (e : PyExc) (k : nat),
       e ≠ Conflict → (k < 3)%nat →
       (∀ i, (i < k)%nat → commit_fault w (c + i)%nat = Some Conflict) →
       commit_fault w (c + k)%nat = Some e →
       run.1 = Raise e
       ∧ commits_seen run.2 = (c + k + 1)%nat
       ∧ datastore run.2 = datastore w).
Proof.
  simpl. rewrite write_minibatch_spec.
  replace (S (S (commits_seen w))) with (commits_seen w + 2)%nat by lia.
  replace (S (commits_seen w)) with (commits_seen w + 1)%nat by lia.
  split; [|split].
  - intros F0 F1 F2. rewrite F0, F1, F2. simpl.
    replace (S (commits_seen w)) with (commits_seen w + 1)%nat by lia.
    replace (S (commits_seen w + 1)) with (commits_seen w + 2)%nat by lia.
    rewrite F0, F1, F2. repeat split; lia.
  - intros Hall.
    pose proof (Hall 0%nat ltac:(lia)) as F0. rewrite Nat.add_0_r in F0.
    pose proof (Hall 1%nat ltac:(lia)) as F1.
    pose proof (Hall 2%nat ltac:(lia)) as F2.
    rewrite F0, F1, F2. simpl.
    replace (S (commits_seen w)) with (commits_seen w + 1)%nat by lia.
    replace (S (commits_seen w + 1)) with (commits_seen w + 2)%nat by lia.
    rewrite F0, F1, F2. repeat split; lia.
  - intros e k He Hk Hbefore Hat.
    destruct k as [|[|[|k]]]; [| | |lia].
    + rewrite Nat.add_0_r in Hat. rewrite Hat.
      destruct e; try done; simpl; rewrite Hat; repeat split; lia.
    + pose proof (Hbefore 0%nat ltac:(lia)) as F0. rewrite Nat.add_0_r in F0.
      rewrite F0, Hat.
      destruct e; try done; simpl;
        replace (S (commits_seen w)) with (commits_seen w + 1)%nat by lia;
        rewrite F0, Hat; repeat split; lia.
    + pose proof (Hbefore 0%nat ltac:(lia)) as F0. rewrite Nat.add_0_r in F0.
      pose proof (Hbefore 1%nat ltac:(lia)) as F1.
      rewrite F0, F1, Hat.
      destruct e; try done; simpl;
        replace (S (commits_seen w)) with (commits_seen w + 1)%nat by lia;
        replace (S (commits_seen w + 1)) with (commits_seen w + 2)%nat by lia;
        rewrite F0, F1, Hat; repeat split; lia.
Qed.

(** C7, as the code has it: in a minibatch whose first pass commits, the
    progress callback is called once, with 1, for every row that is
    written, and not for a row that the freshness rule skips: its calls
    number the rows of the minibatch less the skipped ones.  Without a
    callback nothing is noted. *)
Theorem progress_once_per_written_row project table (data : list Row) (w : World) :
  commit_fault w (commits_seen w) = None →
  let run supplied := _write_minibatch project table data (progress_arg supplied) w in
  let skipped := filter (λ r, row_skipped (datastore w) project table r = true) data in
  (run true).1 = Ok tt
  ∧ commits_seen (run true).2 = S (commits_seen w)
  ∧ progress_log (run true).2
    = progress_log w ++ replicate (length data - length skipped) 1
  ∧ (length skipped ≤ length data)%nat
  ∧ progress_log (run false).2 = progress_log w.
Proof.
  intros F0. cbv beta zeta. rewrite !write_minibatch_spec. rewrite F0. simpl.
  assert (length (written_rows (datastore w) project table data)
          = (length data
             - length (filter (λ r, row_skipped (datastore w) project table r = true) data))%nat
          ∧ (length (filter (λ r, row_skipped (datastore w) project table r = true) data)
             ≤ length data)%nat) as [Hcount Hle].
  { unfold written_rows. clear. induction data as [|r data [IH1 IH2]]; [done|].
    rewrite !filter_cons.
    destruct (row_skipped (datastore w) project table r); simpl; lia. }
  rewrite Hcount, app_nil_r. done.
Qed.

(** An empty write: no minibatch, no commit request, nothing changed. *)
Lemma online_write_batch_nil project table progress (w : World) :
  online_write_batch project table [] progress w = (Ok tt, w).
Proof.
  unfold online_write_batch. by rewrite BatchFacts.to_minibatches_unfold.
Qed.

(** C10: the minibatches of [_to_minibatches], put end to end, are the input
    rows in their order; none of them is empty, and of no rows there are
    none, so that [online_write_batch] of an empty list returns without
    having touched the client. *)
Theorem to_minibatches_partition project table progress (data : list Row) (w : World) :
  concat (_to_minibatches default_batch_size data) = data
  ∧ Forall (λ batch, batch ≠ []) (_to_minibatches default_batch_size data)
  ∧ _to_minibatches default_batch_size ([] : list Row) = []
  ∧ online_write_batch project table [] progress w = (Ok tt, w).
Proof.
  destruct (BatchFacts.to_minibatches_spec default_batch_size data) as (Hcat & Hall & _);
    [unfold default_batch_size; lia|].
  split; [done|]. split.
  - eapply Forall_impl; [exact Hall|]. intros batch [Hpos _] ->. simpl in Hpos. lia.
  - split; [by rewrite BatchFacts.to_minibatches_unfold|].
    apply online_write_batch_nil.
Qed.

End WriteFacts.
End WriteFacts.

(** ** The read path *)

Module ReadFacts.
Section ReadFacts.

Context {ValueProto : Type} `{!ProtoRuntime ValueProto}.
Import KeyCodec Gcp Spec.

Lemma read_entity_spec project table result entity_key w :
  read_entity project table result entity_key w
  = (Ok (result ++ [read_one (datastore w) project table entity_key]), w).
Proof.
  unfold read_entity, read_one, mbind, Py_bind, bind, Client.get.
  by destruct (datastore w !! _).
Qed.

Lemma online_read_loop project table entity_keys : ∀ (result : list ReadResult) w,
  for_fold (read_entity project table) result entity_keys w
  = (Ok (result ++ (read_one (datastore w) project table <$> entity_keys)), w).
Proof.
  induction entity_keys as [|k ks IH]; intros result w.
  - simpl. by rewrite app_nil_r.
  - cbn [for_fold]. rewrite fmap_cons. unfold mbind, Py_bind, bind.
    rewrite read_entity_spec, IH, <- app_assoc. done.
Qed.

(** C6: [online_read] returns, without raising and without changing the
    store, one result per key, in the order of the keys: the [i]-th result
    is the event timestamp and the decoded feature values of the record
    stored at the path Project / Table / Row of the project, the table's
    name and the [i]-th key's entity id, or [(None, None)] where nothing is
    stored at that path. *)
Theorem online_read_results project table (entity_keys : list (EntityKeyProto ValueProto))
    (w : World) :
  ∃ results,
    online_read project table entity_keys w = (Ok results, w)
    ∧ length results = length entity_keys
    ∧ ∀ i entity_key,
        entity_keys !! i = Some entity_key →
        results !! i =
          Some match datastore w
                     !! [("Project", project); ("Table", fv_name table);
                         ("Row", compute_datastore_entity_id entity_key)] with
               | Some v => (Some (ent_event_ts v),
                            Some (Value_ParseFromString <$> ent_values v))
               | None => (None, None)
               end.
Proof.
  exists (read_one (datastore w) project table <$> entity_keys).
  split; [|split].
  - unfold online_read. by rewrite online_read_loop.
  - by rewrite length_fmap.
  - intros i entity_key Hi. rewrite list_lookup_fmap, Hi. done.
Qed.

End ReadFacts.
End ReadFacts.

(** ** Deleting a table's rows *)

Module DeleteFacts.
Section DeleteFacts.

Import Gcp Spec BatchFacts.

Lemma query_fetch_spec (key : Key) (limit : nat) (w : World) :
  Client.query_fetch "Row" key limit w = (Ok (take limit (rows_under key (datastore w))), w).
Proof. reflexivity. Qed.

Lemma delete_loop_spec entities : ∀ w,
  txn w = None →
  for_fold (λ _ entity, Client.delete entity.1) tt entities w
  = (Ok tt, set_datastore (delete_keys (datastore w) entities) w).
Proof.
  induction entities as [|ke entities IH]; intros w Htxn.
  - simpl. unfold ret, set_datastore. by destruct w.
  - cbn [for_fold]. unfold mbind, Py_bind, bind, Client.delete, Client.mutate.
    rewrite Htxn. rewrite IH by done. done.
Qed.

Lemma length_rows_under (key : Key) (d : gmap Key Entity) :
  length (rows_under key d) = size (filter (is_row_under key) d).
Proof.
  rewrite <- length_map_to_list. apply Permutation_length.
  apply NoDup_Permutation.
  - apply NoDup_filter, NoDup_map_to_list.
  - apply NoDup_map_to_list.
  - intros [k e]. unfold rows_under.
    rewrite list_elem_of_filter, !elem_of_map_to_list, map_lookup_filter_Some.
    tauto.
Qed.

Lemma delete_keys_cons (d : gmap Key Entity) ke entities :
  delete_keys d (ke :: entities) = delete_keys (delete ke.1 d) entities.
Proof. reflexivity. Qed.

(** Deleting fetched rows: the other entities stay, the rows go. *)
Lemma delete_keys_spec (key : Key) entities : ∀ (d : gmap Key Entity),
  NoDup entities.*1 →
  (∀ ke, ke ∈ entities → d !! ke.1 = Some ke.2 ∧ is_row_under key ke) →
  size (filter (is_row_under key) (delete_keys d entities))
  = (size (filter (is_row_under key) d) - length entities)%nat
  ∧ filter (λ ke, ¬ is_row_under key ke) (delete_keys d entities)
    = filter (λ ke, ¬ is_row_under key ke) d.
Proof.
  induction entities as [|[k e] entities IH]; intros d Hnd Hin.
  - simpl. split; [lia|done].
  - simpl in Hnd. apply NoDup_cons in Hnd as [Hk Hnd].
    destruct (Hin (k, e) ltac:(left)) as [Hlook Hrow]. simpl in Hlook.
    rewrite delete_keys_cons. cbn [fst].
    destruct (IH (delete k d) Hnd) as [Hsize Hrest].
    { intros [k' e'] Hin'. destruct (Hin (k', e') ltac:(by right)) as [Hl Hr].
      split; [|done]. simpl in *. rewrite lookup_delete_ne; [done|].
      intros ->. apply Hk. apply list_elem_of_fmap. by exists (k', e'). }
    rewrite Hsize, Hrest, !map_filter_delete. split.
    + rewrite map_size_delete_Some; [simpl; lia|].
      exists e. by apply map_lookup_filter_Some.
    + apply delete_id. apply map_lookup_filter_None. right.
      intros e' He' Hnot. assert (e' = e) as -> by congruence. by apply Hnot.
Qed.

Lemma delete_page (key : Key) (limit : nat) (d : gmap Key Entity) :
  let page := take limit (rows_under key d) in
  length (rows_under key (delete_keys d page))
  = (length (rows_under key d) - limit)%nat
  ∧ filter (λ ke, ¬ is_row_under key ke) (delete_keys d page)
    = filter (λ ke, ¬ is_row_under key ke) d.
Proof.
  simpl.
  destruct (delete_keys_spec key (take limit (rows_under key d)) d) as [Hsize Hrest].
  - assert ((take limit (rows_under key d)).*1 `sublist_of` (map_to_list d).*1) as Hsub.
    { apply fmap_sublist. etrans; [apply sublist_take|apply sublist_filter]. }
    exact (sublist_NoDup _ _ (NoDup_fst_map_to_list d) Hsub).
  - intros [k e] Hin. apply subseteq_take in Hin.
    unfold rows_under in Hin. apply list_elem_of_filter in Hin as [Hrow Hin].
    by apply elem_of_map_to_list in Hin.
  - split; [|done]. rewrite !length_rows_under, Hsize, length_take.
    rewrite <- length_rows_under. lia.
Qed.

Lemma rows_under_nil_without (key : Key) (d : gmap Key Entity) :
  rows_under key d = [] → without_rows key d = d.
Proof.
  intros Hnil. apply map_filter_id. intros k e Hke Hrow.
  assert ((k, e) ∈ rows_under key d) as Hin.
  { apply list_elem_of_filter. split; [done|]. by apply elem_of_map_to_list. }
  rewrite Hnil in Hin. by apply elem_of_nil in Hin.
Qed.

(** The loop on a store with [n] rows under the key: it ends, with those
    rows gone and all else in place, as soon as its rounds may number more
    than [ceil(n / 1000)], and not before. *)
Lemma delete_all_values_run (key : Key) : ∀ (fuel n : nat) (w : World),
  txn w = None →
  length (rows_under key (datastore w)) = n →
  ((ceil_div n page_size < fuel)%nat →
   _delete_all_values fuel key w
   = (Ok (Some tt), set_datastore (without_rows key (datastore w)) w))
  ∧ ((fuel ≤ ceil_div n page_size)%nat →
     (_delete_all_values fuel key w).1 = Ok None).
Proof.
  induction fuel as [|fuel IH]; intros n w Htxn Hn.
  { split; [lia|done]. }
  cbn [_delete_all_values]. unfold mbind, Py_bind, bind.
  rewrite query_fetch_spec.
  destruct (rows_under key (datastore w)) as [|ke rows] eqn:Hrows.
  - simpl in Hn. subst n. rewrite take_nil. split.
    + intros _. unfold mret, Py_ret, ret.
      rewrite rows_under_nil_without by done. by destruct w.
    + unfold ceil_div, page_size. simpl. lia.
  - assert (0 < n)%nat as Hpos by (simpl in Hn; lia).
    destruct (take page_size (ke :: rows)) as [|ke' page] eqn:Hpage;
      [by unfold page_size in Hpage|].
    rewrite <- Hpage, <- Hrows. rewrite delete_loop_spec by done.
    destruct (delete_page key page_size (datastore w)) as [Hlen Hrest].
    cbv zeta in Hlen, Hrest.
    set (w' := set_datastore _ w).
    destruct (IH (n - page_size)%nat w') as [IHdone IHmore]; [done|..].
    { subst w'. cbn [datastore set_datastore]. by rewrite Hlen, Hrows, Hn. }
    assert (0 < page_size)%nat as Hps by (unfold page_size; lia).
    rewrite (ceil_div_step n page_size Hps Hpos).
    split.
    + intros Hfuel. rewrite IHdone by lia. subst w'. simpl.
      unfold without_rows. rewrite Hrest. done.
    + intros Hfuel. apply IHmore. lia.
Qed.

Lemma rows_under_without (key : Key) (d : gmap Key Entity) :
  rows_under key (without_rows key d) = [].
Proof.
  apply length_zero_iff_nil. rewrite length_rows_under.
  apply map_size_empty_iff, map_empty. intros k.
  apply map_lookup_filter_None. right. intros e He Hrow.
  apply map_lookup_filter_Some in He as [_ Hnot]. by apply Hnot.
Qed.

Lemma lookup_without_rows (key k : Key) (d : gmap Key Entity) :
  without_rows key d !! k
  = if decide (key_kind k = Some "Row" ∧ has_ancestor key k) then None else d !! k.
Proof.
  case_decide as Hrow.
  - apply map_lookup_filter_None. right. intros e _ Hnot. by apply Hnot.
  - destruct (d !! k) as [e|] eqn:He.
    + apply map_lookup_filter_Some. split; [done|]. exact Hrow.
    + apply map_lookup_filter_None. by left.
Qed.

(** C9: called outside a transaction, [_delete_all_values] removes every
    [Row] entity under the key and nothing else.  Each fetch returns at most
    1000 rows; with [n] rows stored the loop makes [ceil(n / 1000)] rounds
    that delete a page and one more whose fetch is empty, and then returns:
    four rounds for 2500 rows.  On a table without rows it returns at the
    first fetch and leaves the store as it is, so a second call changes
    nothing. *)
Theorem delete_all_values_empties_table (key : Key) (w : World) :
  txn w = None →
  let n := length (rows_under key (datastore w)) in
  let emptied := set_datastore (without_rows key (datastore w)) w in
  (∀ v, ∃ page, Client.query_fetch "Row" key page_size v = (Ok page, v)
                ∧ (length page ≤ 1000)%nat
                ∧ page = take 1000 (rows_under key (datastore v)))
  ∧ (∀ fuel, (ceil_div n 1000 < fuel)%nat →
             _delete_all_values fuel key w = (Ok (Some tt), emptied))
  ∧ (∀ fuel, (fuel ≤ ceil_div n 1000)%nat →
             (_delete_all_values fuel key w).1 = Ok None)
  ∧ rows_under key (datastore emptied) = []
  ∧ (∀ k, datastore emptied !! k
          = if decide (key_kind k = Some "Row" ∧ has_ancestor key k)
            then None else datastore w !! k)
  ∧ (n = 2500%nat →
     _delete_all_values 4 key w = (Ok (Some tt), emptied)
     ∧ (_delete_all_values 3 key w).1 = Ok None)
  ∧ (n = 0%nat →
     emptied = w
     ∧ ∀ fuel, (0 < fuel)%nat → _delete_all_values fuel key w = (Ok (Some tt), w))
  ∧ (∀ fuel, (0 < fuel)%nat →
             _delete_all_values fuel key emptied = (Ok (Some tt), emptied)).
Proof.
  intros Htxn n emptied.
  pose proof (λ fuel, delete_all_values_run key fuel n w Htxn eq_refl) as Hrun.
  change page_size with 1000%nat in Hrun.
  assert (rows_under key (datastore emptied) = []) as Hgone
    by apply rows_under_without.
  assert (∀ fuel, (0 < fuel)%nat →
                  _delete_all_values fuel key emptied = (Ok (Some tt), emptied)) as Hagain.
  { intros fuel Hfuel.
    destruct (delete_all_values_run key fuel 0 emptied Htxn) as [Hdone _].
    { by rewrite Hgone. }
    rewrite Hdone.
    - rewrite rows_under_nil_without by done. by destruct emptied.
    - unfold ceil_div, page_size. simpl. lia. }
  split; [|split; [|split; [|split; [|split; [|split; [|split]]]]]].
  - intros v. eexists. split; [apply query_fetch_spec|].
    split; [|done]. rewrite length_take. unfold page_size. lia.
  - intros fuel Hfuel. by apply Hrun.
  - intros fuel Hfuel. by apply Hrun.
  - exact Hgone.
  - intros k. apply lookup_without_rows.
  - intros Hn. split; apply Hrun; rewrite Hn; vm_compute; lia.
  - intros Hn.
    assert (emptied = w) as Hsame.
    { subst emptied. rewrite rows_under_nil_without; [by destruct w|].
      by apply length_zero_iff_nil. }
    split; [done|]. intros fuel Hfuel. rewrite <- Hsame at 2.
    apply Hrun. rewrite Hn. unfold ceil_div. simpl. lia.
  - exact Hagain.
Qed.

End DeleteFacts.
End DeleteFacts.

(** ** Materialization *)

Module MaterializeFacts.
Section MaterializeFacts.

Context {ValueProto : Type} `{!ProtoRuntime ValueProto} `{!Offline ValueProto}.
Import Gcp Spec.

Lemma materialize_unfold feature_view start_date end_date registry project w :
  materialize_single_feature_view feature_view start_date end_date registry project w =
    match rows_to_write feature_view start_date end_date registry project with
    | Raise e => (Raise e, feature_view, registry, w)
    | Ok rows =>
        match online_write_batch project feature_view rows None w with
        | (Raise e, w') => (Raise e, feature_view, registry, w')
        | (Ok _, w') =>
            let feature_view' :=
              append_interval feature_view (make_tzaware start_date, make_tzaware end_date) in
            (Ok tt, feature_view', apply_feature_view registry feature_view' project, w')
        end
    end.
Proof.
  unfold materialize_single_feature_view, rows_to_write.
  destruct (fv_input feature_view); [|done].
  destruct (resolve_entities _ _ _) as [entities|e]; [|done].
  destruct (_get_column_names _ _) as [[[? ?] ?] ?].
  destruct (pull_latest_from_table_or_query _ _ _ _ _ _ _); done.
Qed.

(** C4: [materialize_single_feature_view] appends the interval
    [(start, end)] to the feature view's list and persists the view through
    the registry exactly when the batched write has returned without error:
    then one interval is appended, at the end.  When [online_write_batch]
    raises, or the call ends before the write, the exception is passed on
    and the list and the registry are as before. *)
Theorem interval_recorded_iff_write_succeeds (feature_view : FeatureView)
    (start_date end_date : datetime) (registry : Registry) (project : string) (w : World) :
  let run := materialize_single_feature_view feature_view start_date end_date
                                             registry project w in
  let res := run.1.1.1 in
  let feature_view' := run.1.1.2 in
  let registry' := run.1.2 in
  let interval := (make_tzaware start_date, make_tzaware end_date) in
  let rows := rows_to_write feature_view start_date end_date registry project in
  (is_ok res = true ↔
     ∃ data, rows = Ok data
             ∧ is_ok (online_write_batch project feature_view data None w).1 = true)
  ∧ (∀ data e, rows = Ok data →
               (online_write_batch project feature_view data None w).1 = Raise e →
               res = Raise e ∧ feature_view' = feature_view ∧ registry' = registry)
  ∧ (∀ data, rows = Ok data →
             run.2 = (online_write_batch project feature_view data None w).2)
  ∧ (is_ok res = true →
     materialization_intervals feature_view'
     = materialization_intervals feature_view ++ [interval]
     ∧ fv_name feature_view' = fv_name feature_view
     ∧ reg_feature_views registry' !! (project, fv_name feature_view) = Some feature_view'
     ∧ registry' = apply_feature_view registry feature_view' project)
  ∧ (is_ok res = false → feature_view' = feature_view ∧ registry' = registry)
  ∧ (materialization_intervals feature_view'
     = materialization_intervals feature_view ++ [interval] ↔ is_ok res = true).
Proof.
  cbv zeta. rewrite materialize_unfold.
  assert (∀ (l : list (datetime * datetime)) x, l ≠ l ++ [x]) as Hneq.
  { intros l x Heq. apply (f_equal length) in Heq. rewrite length_app in Heq.
    simpl in Heq. lia. }
  destruct (rows_to_write feature_view start_date end_date registry project)
    as [data|e0] eqn:Hrows.
  - destruct (online_write_batch project feature_view data None w) as [[[]|e1] w'] eqn:Hw;
      simpl.
    + split; [|split; [|split; [|split; [|split]]]].
      * split; [|done]. intros _. exists data. by rewrite Hw.
      * intros data' e' Hd He. assert (data' = data) as -> by congruence.
        rewrite Hw in He. done.
      * intros data' Hd. assert (data' = data) as -> by congruence. by rewrite Hw.
      * intros _. split; [done|]. split; [done|]. split; [|done].
        apply lookup_insert_eq.
      * done.
      * done.
    + split; [|split; [|split; [|split; [|split]]]].
      * split; [done|]. intros (data' & Hd & Hok).
        assert (data' = data) as -> by congruence. rewrite Hw in Hok. done.
      * intros data' e' Hd He. assert (data' = data) as -> by congruence.
        rewrite Hw in He. simpl in He. by rewrite He.
      * intros data' Hd. assert (data' = data) as -> by congruence. by rewrite Hw.
      * done.
      * done.
      * split; [|done]. intros Heq. by apply Hneq in Heq.
  - simpl. split; [|split; [|split; [|split; [|split]]]]; try done.
    + split; [done|]. by intros (data & Hd & _).
    + split; [|done]. intros Heq. by apply Hneq in Heq.
Qed.

End MaterializeFacts.
End MaterializeFacts.

(** ** The theorems at concrete objects *)

Module Examples.

Import Gcp Spec WriteFacts Demo.

#[local] Existing Instance Demo.runtime.

Lemma demo_hash_length (b : bytes) : length (demo_hash b) = 16%nat.
Proof.
  unfold demo_hash. rewrite length_take, length_app, length_replicate. lia.
Qed.

(** C1 at two rows of driver 1, event timestamps 90 and 100, on an empty
    store: in both orders the record of the second row is stored, with its
    key bytes, its feature value 30, its event timestamp and no created
    timestamp.  And at a row with the stored event timestamp 100 and a
    created timestamp, written over a record without one: the row's record,
    with the feature value 40, replaces what was stored. *)
Lemma freshness_monotonicity_witness :
  let r1 := row 1 10 90 None in
  let r2 := row 1 30 100 None in
  let r3 := row 1 40 100 (Some 3) in
  let w := fresh_world no_faults in
  let write r w := online_write_batch "p" driver_stats [r] (progress_arg false) w in
  let path := [("Project", "p"); ("Table", "driver_stats");
               ("Row", "00000001000000040000000464695f72")] in
  let key_bytes := [x64; x72; x69; x76; x65; x72; x5f; x69; x64; x01; x00; x00; x00] in
  event_instant r1 < event_instant r2
  ∧ datastore (write r2 (write r1 w).2).2 !! path
    = Some (mk_Entity key_bytes {["value" := [x1e; x00; x00; x00]]} 100 None)
  ∧ datastore (write r1 (write r2 w).2).2 !! path
    = Some (mk_Entity key_bytes {["value" := [x1e; x00; x00; x00]]} 100 None)
  ∧ datastore world_with_stored !! path
    = Some (mk_Entity key_bytes {["value" := [x1e; x00; x00; x00]]} 100 None)
  ∧ (write r3 world_with_stored).1 = Ok tt
  ∧ datastore (write r3 world_with_stored).2 !! path
    = Some (mk_Entity key_bytes {["value" := [x28; x00; x00; x00]]} 100 (Some 3)).
Proof.
  intros r1 r2 r3 w write path key_bytes.
  assert (event_instant r1 < event_instant r2) as Hlt by (vm_compute; reflexivity).
  assert (healthy w) as Hw by (intros n; reflexivity).
  assert (healthy world_with_stored) as Hv by (intros n; reflexivity).
  assert (∀ e, datastore w !! key_of_row "p" driver_stats r2 = Some e
               → stored_is_fresher e r2 = false) as Hinit
    by (intros e He; vm_compute in He; discriminate).
  destruct (freshness_monotonicity false "p" driver_stats r1 r2 w eq_refl Hlt Hw Hinit)
    as ((_ & _ & H12) & (_ & _ & H21) & _ & _ & _ & Htie & Hrecord).
  destruct (Htie r3 (entity_of_row stored_row) world_with_stored Hv)
    as (Hok & Hd); [reflexivity|reflexivity|right; left; reflexivity|].
  split; [exact Hlt|]. split; [|split; [|split; [|split]]].
  - subst write. cbv beta. rewrite H12.
    generalize (Hrecord r2 w). vm_compute. intros Hr. exact Hr.
  - subst write. cbv beta. rewrite H21.
    generalize (Hrecord r2 w). vm_compute. intros Hr. exact Hr.
  - vm_compute. reflexivity.
  - exact Hok.
  - subst write. cbv beta. rewrite Hd.
    generalize (Hrecord r3 world_with_stored). vm_compute. intros Hr. exact Hr.
Defined.

(** C2 at two rows of driver 1 with event timestamp 100 and created
    timestamps 5 and 7, on an empty store: in both orders the record left at
    the key path is the one of the row created at 7, with its feature value
    30.  After the first row alone the record is that row's, with the
    feature value 10 and the created timestamp 5. *)
Lemma created_tie_break_witness :
  let ra := row 1 10 100 (Some 5) in
  let rb := row 1 30 100 (Some 7) in
  let w := fresh_world no_faults in
  let write r w := online_write_batch "p" driver_stats [r] (progress_arg false) w in
  let path := [("Project", "p"); ("Table", "driver_stats");
               ("Row", "00000001000000040000000464695f72")] in
  let key_bytes := [x64; x72; x69; x76; x65; x72; x5f; x69; x64; x01; x00; x00; x00] in
  event_instant ra = event_instant rb
  ∧ datastore (write ra w).2 !! path
    = Some (mk_Entity key_bytes {["value" := [x0a; x00; x00; x00]]} 100 (Some 5))
  ∧ datastore (write rb (write ra w).2).2 !! path
    = Some (mk_Entity key_bytes {["value" := [x1e; x00; x00; x00]]} 100 (Some 7))
  ∧ datastore (write ra (write rb w).2).2 !! path
    = Some (mk_Entity key_bytes {["value" := [x1e; x00; x00; x00]]} 100 (Some 7)).
Proof.
  intros ra rb w write path key_bytes.
  assert (instant (make_tzaware (mk_datetime 5 None))
          < instant (make_tzaware (mk_datetime 7 None))) as Hlt
    by (vm_compute; reflexivity).
  assert (healthy w) as Hw by (intros n; reflexivity).
  assert (∀ e, datastore w !! key_of_row "p" driver_stats rb = Some e
               → stored_is_fresher e rb = false) as Hinit
    by (intros e He; vm_compute in He; discriminate).
  destruct (created_tie_break false "p" driver_stats ra rb _ _ w
              eq_refl eq_refl eq_refl eq_refl Hlt Hw Hinit)
    as ((_ & _ & Hab) & (_ & _ & Hba) & _ & Hrecord).
  split; [reflexivity|]. split; [|split].
  - vm_compute. reflexivity.
  - subst write. cbv beta. rewrite Hab.
    generalize (Hrecord rb _ w eq_refl). vm_compute. intros Hr. exact Hr.
  - subst write. cbv beta. rewrite Hba.
    generalize (Hrecord rb _ w eq_refl). vm_compute. intros Hr. exact Hr.
Defined.

(** C3 at the key [{b: 2, a: 1}] and the same pairs in the other order:
    both get the id [00000002000000040000000400000001], which reads back as
    the 16 bytes of the hash. *)
Lemma compute_datastore_entity_id_deterministic_witness :
  let K1 := mk_EntityKey ["b"; "a"] [2; 1] in
  let K2 := mk_EntityKey ["a"; "b"] [1; 2] in
  let digest := [x00; x00; x00; x02; x00; x00; x00; x04;
                 x00; x00; x00; x04; x00; x00; x00; x01] in
  NoDup (join_keys K1)
  ∧ zip (join_keys K1) (entity_values K1) ≡ₚ zip (join_keys K2) (entity_values K2)
  ∧ mmh3_hash_bytes (KeyCodec.serialize_entity_key K1) = digest
  ∧ KeyCodec.compute_datastore_entity_id K1 = "00000002000000040000000400000001"
  ∧ KeyCodec.compute_datastore_entity_id K2 = "00000002000000040000000400000001"
  ∧ MoreSpec.unhex (KeyCodec.compute_datastore_entity_id K2) = Some digest
  ∧ String.length (KeyCodec.compute_datastore_entity_id K1) = 32%nat.
Proof.
  intros K1 K2 digest.
  assert (NoDup (join_keys K1)) as Hnd
    by (apply (bool_decide_unpack _); vm_compute; reflexivity).
  assert (zip (join_keys K1) (entity_values K1)
          ≡ₚ zip (join_keys K2) (entity_values K2)) as Hperm
    by apply perm_swap.
  assert (mmh3_hash_bytes (KeyCodec.serialize_entity_key K1) = digest) as Hdigest
    by (vm_compute; reflexivity).
  destruct (@KeyCodecFacts.compute_datastore_entity_id_deterministic
              Z Demo.runtime K1 K2 demo_hash_length Hnd Hperm)
    as (_ & Hid & _ & Hlen & _ & _ & Hdigits & _ & Hback).
  assert (KeyCodec.compute_datastore_entity_id K1 = "00000002000000040000000400000001")
    as Hone by (vm_compute; reflexivity).
  split; [exact Hnd|]. split; [exact Hperm|]. split; [exact Hdigest|].
  split; [exact Hone|]. split; [by rewrite <- Hid|].
  split; [by rewrite Hback, Hdigest|exact Hlen].
Defined.

(** C6 at a store that holds a record for driver 1 only, read at the keys
    of drivers 2, 1 and 2: the record of driver 1 comes second, with its
    event timestamp 100 and its feature value 30 decoded, between two
    [(None, None)]; the store is as it was. *)
Lemma online_read_results_witness :
  online_read "p" driver_stats [driver 2; driver 1; driver 2] world_with_stored
  = (Ok [(None, None); (Some 100, Some {["value" := 30]}); (None, None)],
     world_with_stored).
Proof.
  destruct (ReadFacts.online_read_results "p" driver_stats
              [driver 2; driver 1; driver 2] world_with_stored)
    as (results & Hrun & Hlen & Hith).
  rewrite Hrun. f_equal. f_equal.
  pose proof (Hith 0%nat _ eq_refl) as H0.
  pose proof (Hith 1%nat _ eq_refl) as H1.
  pose proof (Hith 2%nat _ eq_refl) as H2.
  destruct results as [|a [|b [|c [|d results]]]]; try discriminate Hlen.
  vm_compute in H0, H1, H2.
  injection H0 as ->. injection H1 as ->. injection H2 as ->.
  vm_compute. reflexivity.
Defined.

(** C8 at 120 rows: three minibatches, of 50, 50 and 20 rows, which are the
    rows in their order. *)
Lemma to_minibatches_count_and_bound_witness :
  let data := seq 0 120 in
  let batches := Batch._to_minibatches Batch.default_batch_size data in
  length batches = 3%nat
  ∧ concat batches = data
  ∧ batches = [seq 0 50; seq 50 50; seq 100 20].
Proof.
  intros data batches.
  destruct (BatchFacts.to_minibatches_count_and_bound data) as (Hlen & _ & _ & Hcat & _).
  split; [|split].
  - subst batches. rewrite Hlen. reflexivity.
  - exact Hcat.
  - vm_compute. reflexivity.
Defined.

(** C7 as stated fails: the minibatch of two rows is committed at the first
    pass, and the callback has been called once, not twice: the row that
    the freshness rule skipped is not counted. *)
Lemma progress_not_called_for_skipped_row :
  let run := _write_minibatch "p" driver_stats stale_and_new
                              (Some recording_progress) world_with_stored in
  run.1 = Ok tt
  ∧ commits_seen run.2 = 1%nat
  ∧ length stale_and_new = 2%nat
  ∧ progress_log world_with_stored = []
  ∧ progress_log run.2 = [1]
  ∧ length (progress_log run.2) ≠ length stale_and_new.
Proof. vm_compute. repeat split; congruence. Qed.

Lemma progress_once_per_written_row_witness :
  commit_fault world_with_stored (commits_seen world_with_stored) = None
  ∧ progress_log (_write_minibatch "p" driver_stats stale_and_new
                                   (Some recording_progress) world_with_stored).2
    = [1].
Proof.
  split; [reflexivity|].
  destruct (progress_once_per_written_row "p" driver_stats stale_and_new
              world_with_stored eq_refl) as (_ & _ & Hlog & _).
  cbv beta in Hlog. change (progress_arg true) with (Some recording_progress) in Hlog.
  rewrite Hlog. vm_compute. reflexivity.
Defined.

(** C5 at a one-row minibatch on three backends: two conflicts then
    success, conflicts only, and an error that is not a conflict. *)
Lemma write_minibatch_retry_bound_witness :
  let data := [row 1 30 100 None] in
  let run faults :=
    _write_minibatch "p" driver_stats data (progress_arg false) (fresh_world faults) in
  ((run (faults_then_ok 2 Conflict)).1 = Ok tt
   ∧ commits_seen (run (faults_then_ok 2 Conflict)).2 = 3%nat
   ∧ datastore (run (faults_then_ok 2 Conflict)).2 !! key_of_row "p" driver_stats (row 1 30 100 None)
     = Some (entity_of_row (row 1 30 100 None)))
  ∧ ((run (always Conflict)).1 = Raise Conflict
     ∧ commits_seen (run (always Conflict)).2 = 3%nat)
  ∧ ((run (always (BackendError "unavailable"))).1 = Raise (BackendError "unavailable")
     ∧ commits_seen (run (always (BackendError "unavailable"))).2 = 1%nat).
Proof.
  intros data run. subst run. cbv beta.
  split; [|split].
  - destruct (write_minibatch_retry_bound false "p" driver_stats data
                (fresh_world (faults_then_ok 2 Conflict)))
      as ((Hok & Hstore & Hseen) & _); [reflexivity..|].
    split; [exact Hok|]. split; [exact Hseen|]. rewrite Hstore.
    vm_compute. reflexivity.
  - destruct (write_minibatch_retry_bound false "p" driver_stats data
                (fresh_world (always Conflict)))
      as (_ & Hall & _).
    destruct Hall as (Hraise & Hseen & _); [intros i _; reflexivity|].
    split; [exact Hraise|exact Hseen].
  - destruct (write_minibatch_retry_bound false "p" driver_stats data
                (fresh_world (always (BackendError "unavailable"))))
      as (_ & _ & Hother).
    destruct (Hother (BackendError "unavailable") 0%nat) as (Hraise & Hseen & _);
      [discriminate|lia|intros i Hi; lia|reflexivity|].
    split; [exact Hraise|exact Hseen].
Defined.

(** C9 at a store with 2500 rows of the table and a row of another table:
    three rounds do not end the loop, the fourth does, and only the other
    table's row is left. *)
Lemma delete_all_values_empties_table_witness :
  let key := table_key "p" driver_stats in
  let w := table_world 2500 in
  txn w = None
  ∧ length (rows_under key (datastore w)) = 2500%nat
  ∧ (_delete_all_values 3 key w).1 = Ok None
  ∧ (_delete_all_values 4 key w).1 = Ok (Some tt)
  ∧ rows_under key (datastore (_delete_all_values 4 key w).2) = []
  ∧ datastore (_delete_all_values 4 key w).2 !! (numbered_row other_table 0).1
    = Some (numbered_row other_table 0).2.
Proof.
  intros key w.
  assert (length (rows_under key (datastore w)) = 2500%nat) as Hn
    by (vm_compute; reflexivity).
  destruct (DeleteFacts.delete_all_values_empties_table key w eq_refl)
    as (_ & _ & _ & Hgone & Hkept & H2500 & _).
  destruct (H2500 Hn) as [Hfour Hthree].
  split; [reflexivity|]. split; [exact Hn|]. split; [exact Hthree|].
  rewrite Hfour. split; [reflexivity|]. split; [exact Hgone|].
  cbn [snd]. rewrite Hkept. vm_compute. reflexivity.
Defined.

End Examples.

(** ** The write path: what a batched write keeps *)

Module WriteMoreFacts.
Section WriteMoreFacts.

Context {ValueProto : Type} `{!ProtoRuntime ValueProto}.
Import KeyCodec Batch Gcp Spec MoreSpec WriteFacts.

Abbreviation Row := (Row ValueProto).

#[local] Instance PyExc_eq_dec : EqDecision PyExc.
Proof. solve_decision. Defined.

Lemma never_older_refl (d : gmap Key Entity) : never_older d d.
Proof. intros k e He. by exists e. Qed.

Lemma never_older_trans (d1 d2 d3 : gmap Key Entity) :
  never_older d1 d2 → never_older d2 d3 → never_older d1 d3.
Proof.
  intros H12 H23 k e He.
  destruct (H12 k e He) as (e2 & He2 & Hle2).
  destruct (H23 k e2 He2) as (e3 & He3 & Hle3).
  exists e3. split; [done|lia].
Qed.

Lemma same_outside_refl (keys : list Key) (d : gmap Key Entity) : same_outside keys d d.
Proof. by intros k _. Qed.

Lemma same_outside_trans (keys : list Key) (d1 d2 d3 : gmap Key Entity) :
  same_outside keys d1 d2 → same_outside keys d2 d3 → same_outside keys d1 d3.
Proof. intros H12 H23 k Hk. by rewrite H23, H12. Qed.

Lemma same_outside_mono (keys keys' : list Key) (d d' : gmap Key Entity) :
  keys ⊆ keys' → same_outside keys d d' → same_outside keys' d d'.
Proof. intros Hsub H k Hk. apply H. intros Hin. by apply Hk, Hsub. Qed.

(** A stored entity that does not make the row loop skip a row is not newer
    than the row. *)
Lemma not_fresher_le (e : Entity) (r : Row) :
  stored_is_fresher e r = false → ent_event_ts e ≤ event_instant r.
Proof.
  unfold stored_is_fresher, event_instant. case_bool_decide; [done|]. intros _. lia.
Qed.

Lemma apply_mutations_app (ms1 ms2 : list Mutation) (d : gmap Key Entity) :
  apply_mutations (ms1 ++ ms2) d = apply_mutations ms2 (apply_mutations ms1 d).
Proof. unfold apply_mutations. apply foldl_app. Qed.

Lemma batch_mutations_app d project table (data1 data2 : list Row) :
  batch_mutations d project table (data1 ++ data2)
  = batch_mutations d project table data1 ++ batch_mutations d project table data2.
Proof. unfold batch_mutations, written_rows. by rewrite filter_app, fmap_app. Qed.

Lemma batch_mutations_one d project table (r : Row) :
  batch_mutations d project table [r]
  = if row_skipped d project table r then []
    else [Upsert (key_of_row project table r) (entity_of_row r)].
Proof.
  unfold batch_mutations, written_rows. rewrite filter_cons, filter_nil.
  destruct (row_skipped d project table r); by case_decide.
Qed.

(** The puts of one pass, applied to any store [d0] that is not older than
    the one the pass read. *)
Lemma apply_batch_never_older d project table (data : list Row) : ∀ d0,
  never_older d d0 →
  never_older d (apply_mutations (batch_mutations d project table data) d0).
Proof.
  induction data as [|r data IH] using rev_ind; intros d0 Hd0; [done|].
  rewrite batch_mutations_app, apply_mutations_app, batch_mutations_one.
  destruct (row_skipped d project table r) eqn:Hskip; [by apply IH|].
  unfold apply_mutations at 1. simpl.
  intros k e He.
  destruct (decide (k = key_of_row project table r)) as [->|Hne].
  - exists (entity_of_row r). rewrite lookup_insert_eq. split; [done|].
    unfold row_skipped in Hskip. rewrite He in Hskip.
    apply not_fresher_le in Hskip. exact Hskip.
  - rewrite lookup_insert_ne by done. by apply IH.
Qed.

Lemma apply_batch_same_outside d project table (data : list Row) : ∀ d0,
  same_outside (key_of_row project table <$> data) d0
               (apply_mutations (batch_mutations d project table data) d0).
Proof.
  induction data as [|r data IH] using rev_ind; intros d0; [done|].
  rewrite batch_mutations_app, apply_mutations_app, fmap_app, batch_mutations_one.
  intros k Hk. rewrite elem_of_app in Hk.
  destruct (row_skipped d project table r); unfold apply_mutations at 1; simpl.
  - apply IH. tauto.
  - rewrite lookup_insert_ne.
    + apply IH. tauto.
    + intros <-. apply Hk. right. simpl. by left.
Qed.

Lemma after_attempt_keeps supplied project table data w :
  write_keeps project table data w (after_attempt supplied project table data w).
Proof.
  unfold write_keeps, after_attempt. simpl.
  destruct (commit_fault w (commits_seen w)).
  - split; [apply never_older_refl|]. split; [apply same_outside_refl|done].
  - split; [apply apply_batch_never_older, never_older_refl|].
    split; [apply apply_batch_same_outside|done].
Qed.

Lemma write_keeps_trans project table data w1 w2 w3 :
  write_keeps project table data w1 w2 → write_keeps project table data w2 w3 →
  write_keeps project table data w1 w3.
Proof.
  intros (Hn1 & Hs1 & Hf1 & _) (Hn2 & Hs2 & Hf2 & Ht2).
  split; [by eapply never_older_trans|].
  split; [by eapply same_outside_trans|]. split; [congruence|done].
Qed.

Lemma retry_outcome_passes f0 f1 f2 :
  (1 ≤ (retry_outcome f0 f1 f2).2 ≤ 3)%nat.
Proof. destruct f0 as [[]|], f1 as [[]|], f2 as [[]|]; simpl; lia. Qed.

Lemma passes_keep supplied project table data w (k : nat) :
  (1 ≤ k)%nat →
  write_keeps project table data w
    (Nat.iter k (after_attempt supplied project table data) w).
Proof.
  intros Hk. destruct k as [|k]; [lia|]. clear Hk.
  induction k as [|k IH].
  - apply after_attempt_keeps.
  - eapply write_keeps_trans; [exact IH|]. apply after_attempt_keeps.
Qed.

Lemma write_minibatch_keeps supplied project table data w :
  write_keeps project table data w
    (_write_minibatch project table data (progress_arg supplied) w).2.
Proof.
  rewrite write_minibatch_spec. cbn [snd].
  apply passes_keep. apply retry_outcome_passes.
Qed.

(** [pool.map] keeps what every task keeps, whether tasks raise or not. *)
Lemma pool_map_keeps {A B} (R : World → World → Prop) (f : A → Py B) (items : list A) :
  (∀ w, R w w) →
  (∀ w1 w2 w3, R w1 w2 → R w2 w3 → R w1 w3) →
  (∀ x w, x ∈ items → R w (f x w).2) →
  ∀ w, R w (pool_map f items w).2.
Proof.
  intros Hrefl Htrans. induction items as [|x items IH]; intros Hf w; [apply Hrefl|].
  cbn [pool_map].
  pose proof (Hf x w ltac:(left)) as Hx.
  assert (∀ v, R v (pool_map f items v).2) as Hrest.
  { apply IH. intros y v Hy. apply Hf. by right. }
  destruct (f x w) as [[b|e] w1]; cbn [snd] in *.
  - pose proof (Hrest w1) as H1.
    destruct (pool_map f items w1) as [[bs|e] w2]; cbn [snd] in *; by eapply Htrans.
  - eapply Htrans; [exact Hx|apply Hrest].
Qed.

Lemma elem_of_concat_2 {A} (x : A) (l : list A) (ls : list (list A)) :
  l ∈ ls → x ∈ l → x ∈ concat ls.
Proof.
  induction ls as [|l' ls IH]; intros Hl Hx; [by apply elem_of_nil in Hl|].
  simpl. apply elem_of_app. apply elem_of_cons in Hl as [->|Hl]; [by left|].
  right. by apply IH.
Qed.

Lemma minibatch_rows (batch data : list Row) :
  batch ∈ _to_minibatches default_batch_size data → batch ⊆ data.
Proof.
  intros Hb r Hr.
  destruct (BatchFacts.to_minibatches_spec default_batch_size data) as (Hcat & _);
    [unfold default_batch_size; lia|].
  rewrite <- Hcat. by eapply elem_of_concat_2.
Qed.

Lemma online_write_batch_world project table data progress (w : World) :
  (online_write_batch project table data progress w).2
  = (pool_map (λ b, _write_minibatch project table b progress)
              (_to_minibatches default_batch_size data) w).2.
Proof.
  unfold online_write_batch, mbind, Py_bind, bind.
  by destruct (pool_map _ _ w) as [[bs|e] w'].
Qed.

Lemma online_write_batch_keeps supplied project table (data : list Row) (w : World) :
  let w' := (online_write_batch project table data (progress_arg supplied) w).2 in
  never_older (datastore w) (datastore w')
  ∧ same_outside (key_of_row project table <$> data) (datastore w) (datastore w').
Proof.
  cbv zeta. rewrite online_write_batch_world.
  apply (pool_map_keeps
           (λ v v', never_older (datastore v) (datastore v')
                    ∧ same_outside (key_of_row project table <$> data)
                                   (datastore v) (datastore v'))).
  - intros v. split; [apply never_older_refl|apply same_outside_refl].
  - intros v1 v2 v3 [Hn1 Hs1] [Hn2 Hs2].
    split; [by eapply never_older_trans|by eapply same_outside_trans].
  - intros batch v Hbatch.
    destruct (write_minibatch_keeps supplied project table batch v) as (Hn & Hs & _).
    split; [done|]. eapply same_outside_mono; [|exact Hs].
    intros k Hk. apply list_elem_of_fmap in Hk as (r & -> & Hr).
    apply list_elem_of_fmap. exists r. split; [done|].
    by apply (minibatch_rows batch data).
Qed.

(** X1: whatever the backend answers, [online_write_batch] loses no stored
    record and leaves none with an older event timestamp than it had. *)
Theorem online_write_batch_never_older supplied project table (data : list Row)
    (w : World) (k : Key) (e : Entity) :
  datastore w !! k = Some e →
  ∃ e', datastore (online_write_batch project table data (progress_arg supplied) w).2 !! k
        = Some e'
        ∧ ent_event_ts e ≤ ent_event_ts e'.
Proof.
  intros He.
  destruct (online_write_batch_keeps supplied project table data w) as [Hn _].
  by apply Hn.
Qed.

(** X2: whatever the backend answers, [online_write_batch] changes the store
    at the row keys of the rows it is given and nowhere else. *)
Theorem online_write_batch_frame supplied project table (data : list Row)
    (w : World) (k : Key) :
  k ∉ (key_of_row project table <$> data) →
  datastore (online_write_batch project table data (progress_arg supplied) w).2 !! k
  = datastore w !! k.
Proof.
  intros Hk.
  destruct (online_write_batch_keeps supplied project table data w) as [_ Hs].
  by apply Hs.
Qed.

(** X3: a minibatch is written all or nothing.  [_write_minibatch] either
    returns, and then the puts of all rows that were not skipped are in the
    store, or raises, and then the store is as it was.  Either way no
    transaction is left open and the backend has seen one to three commit
    requests. *)
Theorem write_minibatch_all_or_nothing supplied project table (data : list Row)
    (w : World) :
  let run := _write_minibatch project table data (progress_arg supplied) w in
  ((run.1 = Ok tt
    ∧ datastore run.2
      = apply_mutations (batch_mutations (datastore w) project table data) (datastore w))
   ∨ (∃ e, run.1 = Raise e ∧ datastore run.2 = datastore w))
  ∧ txn run.2 = None
  ∧ (commits_seen w < commits_seen run.2 ≤ commits_seen w + 3)%nat.
Proof.
  cbv zeta. rewrite write_minibatch_spec.
  destruct (commit_fault w (commits_seen w)) as [e0|] eqn:F0.
  2:{ simpl. rewrite F0. split; [by left|]. split; [done|lia]. }
  destruct (decide (e0 = Conflict)) as [->|Hne0].
  2:{ assert (retry_outcome (Some e0) (commit_fault w (S (commits_seen w)))
                (commit_fault w (S (S (commits_seen w)))) = (Raise e0, 1%nat)) as ->
        by (by destruct e0).
      simpl. rewrite F0. split; [right; by exists e0|]. split; [done|lia]. }
  destruct (commit_fault w (S (commits_seen w))) as [e1|] eqn:F1.
  2:{ simpl. rewrite F1, F0. split; [by left|]. split; [done|lia]. }
  destruct (decide (e1 = Conflict)) as [->|Hne1].
  2:{ assert (retry_outcome (Some Conflict) (Some e1)
                (commit_fault w (S (S (commits_seen w)))) = (Raise e1, 2%nat)) as ->
        by (by destruct e1).
      simpl. rewrite F1, F0. split; [right; by exists e1|]. split; [done|lia]. }
  destruct (commit_fault w (S (S (commits_seen w)))) as [e2|] eqn:F2.
  - simpl. rewrite F2, F1, F0.
    split; [right; by exists e2|]. split; [done|lia].
  - simpl. rewrite F2, F1, F0.
    split; [by left|]. split; [done|lia].
Qed.

(** X4: the progress callback is called anew in every pass of the retry
    loop.  When the first [j] commits meet a conflict and the next one goes
    through, it has been called [j + 1] times for every row written. *)
Theorem progress_replayed_on_retry project table (data : list Row) (w : World) (j : nat) :
  (j < 3)%nat →
  (∀ i, (i < j)%nat → commit_fault w (commits_seen w + i)%nat = Some Conflict) →
  commit_fault w (commits_seen w + j)%nat = None →
  let run := _write_minibatch project table data (progress_arg true) w in
  run.1 = Ok tt
  ∧ progress_log run.2
    = progress_log w
      ++ replicate ((j + 1) * length (written_rows (datastore w) project table data)) 1.
Proof.
  intros Hj Hbefore Hat. cbv zeta. rewrite write_minibatch_spec.
  replace (S (S (commits_seen w))) with (commits_seen w + 2)%nat by lia.
  replace (S (commits_seen w)) with (commits_seen w + 1)%nat by lia.
  destruct j as [|[|[|j]]]; [| | |lia].
  - rewrite Nat.add_0_r in Hat. rewrite Hat. simpl. rewrite Nat.add_0_r. done.
  - pose proof (Hbefore 0%nat ltac:(lia)) as F0. rewrite Nat.add_0_r in F0.
    rewrite F0, Hat. simpl. rewrite F0. simpl.
    rewrite <- app_assoc, <- replicate_add. split; [done|]. do 2 f_equal. lia.
  - pose proof (Hbefore 0%nat ltac:(lia)) as F0. rewrite Nat.add_0_r in F0.
    pose proof (Hbefore 1%nat ltac:(lia)) as F1.
    rewrite F0, F1, Hat. simpl.
    replace (S (commits_seen w)) with (commits_seen w + 1)%nat by lia.
    rewrite F1, F0. simpl.
    rewrite <- !app_assoc, <- !replicate_add. split; [done|]. do 2 f_equal. lia.
Qed.

Lemma online_read_spec project table (entity_keys : list (EntityKeyProto ValueProto))
    (w : World) :
  online_read project table entity_keys w
  = (Ok (read_one (datastore w) project table <$> entity_keys), w).
Proof. unfold online_read. by rewrite ReadFacts.online_read_loop. Qed.

(** X5: write, then read.  With a protobuf runtime that parses what it
    serialised, and a backend that answers no commit with an error: reading a
    row's key after the row was written gives the row's event timestamp and
    feature values, unless the freshness rule skipped the row, where it gives
    what it gave before the write. *)
Theorem write_then_read supplied project table (r : Row) (w : World) :
  (∀ v, Value_ParseFromString (Value_SerializeToString v) = v) →
  healthy w →
  let w' := (online_write_batch project table [r] (progress_arg supplied) w).2 in
  (online_read project table [row_entity_key r] w').1
  = if row_skipped (datastore w) project table r
    then (online_read project table [row_entity_key r] w).1
    else Ok [(Some (event_instant r), Some (row_features r))].
Proof.
  intros Hparse Hw. cbv zeta. rewrite !online_read_spec. cbn [fst fmap list_fmap].
  destruct (write_one_row supplied project table r w Hw) as (_ & _ & Hd).
  rewrite Hd. destruct (row_skipped (datastore w) project table r); [done|].
  unfold read_one. fold (key_of_row project table r). rewrite lookup_insert_eq.
  simpl. rewrite <- map_fmap_compose.
  rewrite (map_fmap_ext _ id); [by rewrite map_fmap_id|].
  intros k v _. apply Hparse.
Qed.

(** X6: tables do not see each other's writes.  Whatever is written to one
    table of one project, and whatever the backend answers, a read of another
    table, or of a table of that name in another project, returns what it
    returned before. *)
Theorem writes_stay_in_their_table supplied project table project' table'
    (data : list Row) (entity_keys : list (EntityKeyProto ValueProto)) (w : World) :
  (project, fv_name table) ≠ (project', fv_name table') →
  let w' := (online_write_batch project table data (progress_arg supplied) w).2 in
  (online_read project' table' entity_keys w').1
  = (online_read project' table' entity_keys w).1.
Proof.
  intros Hne. cbv zeta. rewrite !online_read_spec. cbn [fst]. f_equal.
  apply list_fmap_ext. intros i entity_key _. unfold read_one.
  destruct (online_write_batch_keeps supplied project table data w) as [_ Hsame].
  rewrite Hsame; [done|].
  intros Hin. apply list_elem_of_fmap in Hin as (r & Heq & _).
  unfold key_of_row, row_key in Heq. apply Hne. congruence.
Qed.

Lemma written_rows_ext d d' project table (data : list Row) :
  (∀ r, r ∈ data → d' !! key_of_row project table r = d !! key_of_row project table r) →
  written_rows d' project table data = written_rows d project table data.
Proof.
  unfold written_rows. induction data as [|r data IH]; intros Hsame; [done|].
  rewrite !filter_cons.
  assert (row_skipped d' project table r = row_skipped d project table r) as ->.
  { unfold row_skipped. by rewrite (Hsame r ltac:(left)). }
  rewrite IH; [done|]. intros r' Hr'. apply Hsame. by right.
Qed.

Lemma batch_mutations_ext d d' project table (data : list Row) :
  (∀ r, r ∈ data → d' !! key_of_row project table r = d !! key_of_row project table r) →
  batch_mutations d' project table data = batch_mutations d project table data.
Proof. intros Hsame. unfold batch_mutations. by rewrite (written_rows_ext d d'). Qed.

Lemma written_rows_app d project table (data1 data2 : list Row) :
  written_rows d project table (data1 ++ data2)
  = written_rows d project table data1 ++ written_rows d project table data2.
Proof. unfold written_rows. apply filter_app. Qed.

Lemma write_minibatch_healthy supplied project table (data : list Row) (w : World) :
  healthy w →
  _write_minibatch project table data (progress_arg supplied) w
  = (Ok tt, after_attempt supplied project table data w).
Proof. intros Hw. rewrite write_minibatch_spec. by rewrite !Hw. Qed.

(** The minibatches one after the other, on a backend that answers no commit
    with an error, for rows with different keys: [done] are the rows of the
    minibatches already written, [d0] is the store before the first. *)
Lemma write_batches_distinct supplied project table (batches : list (list Row)) :
  ∀ (done : list Row) (d0 : gmap Key Entity) (w : World),
    healthy w →
    datastore w = apply_mutations (batch_mutations d0 project table done) d0 →
    NoDup (key_of_row project table <$> (done ++ concat batches)) →
    let run := pool_map (λ b, _write_minibatch project table b (progress_arg supplied))
                        batches w in
    is_ok run.1 = true
    ∧ datastore run.2
      = apply_mutations (batch_mutations d0 project table (done ++ concat batches)) d0
    ∧ commits_seen run.2 = (commits_seen w + length batches)%nat
    ∧ progress_log run.2
      = progress_log w
        ++ ticks supplied (length (written_rows d0 project table (concat batches))).
Proof.
  induction batches as [|batch batches IH]; intros done d0 w Hw Hd Hnd.
  - simpl. rewrite app_nil_r. split; [done|]. split; [done|].
    split; [lia|]. destruct supplied; simpl; by rewrite app_nil_r.
  - cbn [pool_map concat]. rewrite write_minibatch_healthy by done.
    assert (∀ r, r ∈ batch →
                 datastore w !! key_of_row project table r
                 = d0 !! key_of_row project table r) as Hsame.
    { intros r Hr. rewrite Hd. apply apply_batch_same_outside.
      intros Hin. rewrite fmap_app in Hnd. apply NoDup_app in Hnd as (_ & Hdisj & _).
      apply (Hdisj _ Hin). cbn [concat]. rewrite fmap_app. apply elem_of_app. left.
      by apply list_elem_of_fmap_2. }
    set (w1 := after_attempt supplied project table batch w).
    destruct (IH (done ++ batch) d0 w1) as (Hok & Hstore & Hseen & Hlog).
    + by apply after_attempt_healthy.
    + subst w1. unfold after_attempt. simpl. rewrite Hw.
      rewrite (batch_mutations_ext d0 (datastore w)) by done.
      by rewrite batch_mutations_app, apply_mutations_app, Hd.
    + by rewrite <- app_assoc.
    + cbv zeta in Hok, Hstore, Hseen, Hlog.
      destruct (pool_map _ batches w1) as [[bs|e] w2]; [|done]. cbn [fst snd] in *.
      split; [done|]. split; [by rewrite Hstore, <- app_assoc|].
      split; [rewrite Hseen; subst w1; simpl; lia|].
      rewrite Hlog. subst w1. unfold after_attempt. cbn [progress_log].
      rewrite (written_rows_ext d0 (datastore w)) by done.
      rewrite written_rows_app, length_app, ticks_app, <- app_assoc. done.
Qed.

(** Upserts of rows with different keys: what is stored under a row's key. *)
Lemma lookup_batch_distinct d project table (data : list Row) : ∀ (d0 : gmap Key Entity) r,
  NoDup (key_of_row project table <$> data) →
  r ∈ data →
  apply_mutations (batch_mutations d project table data) d0 !! key_of_row project table r
  = if row_skipped d project table r then d0 !! key_of_row project table r
    else Some (entity_of_row r).
Proof.
  induction data as [|r' data IH] using rev_ind; intros d0 r Hnd Hr;
    [by apply elem_of_nil in Hr|].
  rewrite fmap_app in Hnd. apply NoDup_app in Hnd as (Hnd & Hdisj & _).
  rewrite batch_mutations_app, apply_mutations_app, batch_mutations_one.
  apply elem_of_app in Hr as [Hr|Hr].
  - assert (key_of_row project table r ≠ key_of_row project table r') as Hne.
    { intros Heq. apply (Hdisj (key_of_row project table r)).
      - by apply list_elem_of_fmap_2.
      - rewrite Heq. simpl. by left. }
    destruct (row_skipped d project table r'); unfold apply_mutations at 1; simpl.
    + by apply IH.
    + rewrite lookup_insert_ne by done. by apply IH.
  - apply list_elem_of_singleton in Hr as ->.
    destruct (row_skipped d project table r') eqn:Hskip;
      unfold apply_mutations at 1; simpl.
    + apply apply_batch_same_outside. intros Hin. by apply (Hdisj _ Hin); left.
    + apply lookup_insert_eq.
Qed.

(** X7: a batch of rows with different row keys, on a backend that answers no
    commit with an error, behaves as one write.  The call returns; every row
    is judged against the store as it was before the call, and is stored
    unless a fresher record was there; there is one commit per minibatch,
    [ceil(N / 50)] in all, and one progress call per row stored. *)
Theorem online_write_batch_distinct_keys supplied project table (data : list Row)
    (w : World) :
  healthy w →
  NoDup (key_of_row project table <$> data) →
  let run := online_write_batch project table data (progress_arg supplied) w in
  run.1 = Ok tt
  ∧ (∀ r, r ∈ data →
          datastore run.2 !! key_of_row project table r
          = if row_skipped (datastore w) project table r
            then datastore w !! key_of_row project table r
            else Some (entity_of_row r))
  ∧ commits_seen run.2 = (commits_seen w + ceil_div (length data) 50)%nat
  ∧ progress_log run.2
    = progress_log w
      ++ ticks supplied (length (written_rows (datastore w) project table data)).
Proof.
  intros Hw Hnd.
  destruct (BatchFacts.to_minibatches_spec default_batch_size data) as (Hcat & _ & Hlen);
    [unfold default_batch_size; lia|].
  destruct (write_batches_distinct supplied project table
              (_to_minibatches default_batch_size data) [] (datastore w) w Hw)
    as (Hok & Hstore & Hseen & Hlog); [done|by rewrite Hcat|].
  cbv zeta in *. rewrite Hcat in Hstore, Hlog. rewrite Hlen in Hseen.
  cbn [app] in Hstore.
  unfold online_write_batch, mbind, Py_bind, bind.
  destruct (pool_map _ _ w) as [[bs|e] w']; [|done].
  unfold mret, Py_ret, ret. cbn [fst snd] in *.
  split; [done|]. split; [|done].
  intros r Hr. rewrite Hstore. by apply lookup_batch_distinct.
Qed.

End WriteMoreFacts.
End WriteMoreFacts.

(** ** Minibatches of any size *)

Module BatchMoreFacts.
Section BatchMoreFacts.

Context {A : Type}.
Import Batch Spec BatchFacts.

Lemma to_minibatches_full (bs : nat) (data : list A) :
  (0 < bs)%nat →
  ∀ i batch, _to_minibatches bs data !! i = Some batch →
             batch = take bs (drop (i * bs) data).
Proof.
  intros Hbs i. revert data.
  induction i as [|i IH]; intros data batch Hi.
  - rewrite to_minibatches_unfold in Hi.
    destruct (take bs data) as [|x xs] eqn:Htake; [done|].
    cbn [lookup list_lookup] in Hi. injection Hi as <-.
    by rewrite Nat.mul_0_l, drop_0.
  - rewrite to_minibatches_unfold in Hi.
    destruct (take bs data) as [|x xs] eqn:Htake; [done|].
    change (_to_minibatches bs (drop bs data) !! i = Some batch) in Hi.
    apply IH in Hi. by rewrite Hi, drop_drop.
Qed.

(** X9: for a positive batch size, the [i]-th minibatch is the rows from
    [i * batch_size] on, [batch_size] of them or as many as are left: every
    minibatch but the last is full, and the last holds the remainder. *)
Theorem to_minibatches_slices (bs : nat) (data : list A) (i : nat) (batch : list A) :
  (0 < bs)%nat →
  _to_minibatches bs data !! i = Some batch →
  batch = take bs (drop (i * bs) data)
  ∧ length batch = Nat.min bs (length data - i * bs)
  ∧ ((S i < length (_to_minibatches bs data))%nat → length batch = bs).
Proof.
  intros Hbs Hi.
  pose proof (to_minibatches_full bs data Hbs i batch Hi) as Hb.
  split; [done|]. split; [by rewrite Hb, length_take, length_drop|].
  intros Hnext.
  destruct (lookup_lt_is_Some_2 (_to_minibatches bs data) (S i) Hnext) as [next Hn].
  pose proof (to_minibatches_full bs data Hbs (S i) next Hn) as Hnb.
  destruct (to_minibatches_spec bs data Hbs) as (_ & Hall & _).
  rewrite Forall_forall in Hall.
  assert (0 < length next)%nat as Hpos.
  { apply Hall. by eapply list_elem_of_lookup_2. }
  rewrite Hnb, length_take, length_drop in Hpos.
  rewrite Hb, length_take, length_drop. simpl in Hpos. lia.
Qed.

(** X8: over every integer batch size, listing the minibatches returns
    them with no row lost exactly when [islice] accepts the batch size
    (from 0 to [sys.maxsize]) and the batch size is positive or there are no
    rows: with a batch size of 0 the generator stops at its first, empty
    slice and yields nothing; with a negative batch size, or one above
    [sys.maxsize], [islice] raises, for empty input too. *)
Theorem to_minibatches_lossless_iff (maxsize batch_size : Z) (data : list A) :
  ((∃ batches, _to_minibatches_int maxsize batch_size data = Some batches
               ∧ concat batches = data)
   ↔ (0 ≤ batch_size ≤ maxsize)%Z ∧ ((0 < batch_size)%Z ∨ data = []))
  ∧ (_to_minibatches_int maxsize batch_size data = None
     ↔ (batch_size < 0 ∨ maxsize < batch_size)%Z)
  ∧ ((0 ≤ maxsize)%Z → _to_minibatches_int maxsize 0 data = Some [])
  ∧ (∀ bs : nat, (Z.of_nat bs ≤ maxsize)%Z →
       _to_minibatches_int maxsize (Z.of_nat bs) data = Some (_to_minibatches bs data)).
Proof.
  assert (∀ bs : nat, concat (_to_minibatches bs data) = data
                      ↔ (0 < bs)%nat ∨ data = []) as Hnat.
  { intros bs. split.
    - intros Hcat. destruct bs as [|bs]; [|left; lia]. right.
      rewrite to_minibatches_unfold in Hcat. simpl in Hcat. done.
    - intros [Hbs| ->].
      + by destruct (to_minibatches_spec bs data Hbs) as (Hcat & _).
      + rewrite to_minibatches_unfold. by rewrite take_nil. }
  unfold _to_minibatches_int, islice_stop.
  split; [|split; [|split]].
  - case_bool_decide as Hrange.
    + split.
      * intros (batches & Hb & Hcat). injection Hb as <-.
        apply Hnat in Hcat. split; [done|]. destruct Hcat as [Hpos|Hnil]; [left; lia|by right].
      * intros (_ & Hcase). eexists. split; [done|]. apply Hnat.
        destruct Hcase as [Hpos|Hnil]; [left; lia|by right].
    + split; [by intros (batches & Hb & _)|]. by intros (Hr & _).
  - case_bool_decide as Hrange; split; try done; lia.
  - intros Hmax. rewrite bool_decide_eq_true_2 by lia.
    change (Z.to_nat 0) with 0%nat. by rewrite to_minibatches_unfold.
  - intros bs Hbs. rewrite bool_decide_eq_true_2 by lia. by rewrite Nat2Z.id.
Qed.

End BatchMoreFacts.
End BatchMoreFacts.

(** ** Tearing down tables *)

Module InfraFacts.
Section InfraFacts.

Import Gcp Spec MoreSpec Infra BatchFacts DeleteFacts.

Lemma ceil_div_le (n : nat) : (ceil_div n page_size ≤ n)%nat.
Proof.
  unfold ceil_div, page_size. destruct n as [|n]; [done|].
  apply Nat.Div0.div_le_upper_bound. lia.
Qed.

Lemma length_rows_under_le (key : Key) (d : gmap Key Entity) :
  (length (rows_under key d) ≤ size d)%nat.
Proof. rewrite length_rows_under. apply map_size_filter. Qed.

(** One table: its rows and its own entity go, all else stays. *)
Lemma teardown_table_spec (fuel : nat) (project : string) (table : FeatureView)
    (w : World) :
  txn w = None →
  (size (datastore w) < fuel)%nat →
  teardown_table fuel project table w
  = (Ok (Some tt),
     set_datastore (filter (λ ke, ¬ torn_down project table ke.1) (datastore w)) w).
Proof.
  intros Htxn Hfuel. unfold teardown_table, mbind, Py_bind, bind.
  destruct (delete_all_values_run (table_key project table) fuel _ w Htxn eq_refl)
    as [Hdone _].
  rewrite Hdone.
  2:{ pose proof (ceil_div_le (length (rows_under (table_key project table) (datastore w)))).
      pose proof (length_rows_under_le (table_key project table) (datastore w)). lia. }
  unfold Client.delete, Client.mutate. cbn [txn set_datastore]. rewrite Htxn.
  unfold mret, Py_ret, ret. f_equal. unfold set_datastore. cbn. f_equal.
  apply map_eq. intros k. rewrite lookup_delete.
  case_decide as Hk.
  - subst k. symmetry. apply map_lookup_filter_None. right. intros e _ Hnot.
    apply Hnot. by left.
  - unfold without_rows.
    destruct (datastore w !! k) as [e|] eqn:He.
    + destruct (decide (is_row_under (table_key project table) (k, e))) as [Hrow|Hrow].
      * transitivity (@None Entity).
        { apply map_lookup_filter_None. right. intros e' _ Hnot. by apply Hnot. }
        symmetry. apply map_lookup_filter_None. right. intros e' _ Hnot.
        apply Hnot. right. exact Hrow.
      * transitivity (Some e).
        { apply map_lookup_filter_Some. split; [done|]. exact Hrow. }
        symmetry. apply map_lookup_filter_Some. split; [done|].
        intros [Heq|Hr]; [by apply Hk|by apply Hrow].
    + transitivity (@None Entity).
      { apply map_lookup_filter_None. by left. }
      symmetry. apply map_lookup_filter_None. by left.
Qed.

Lemma teardown_infra_spec (fuel : nat) (project : string) (tables : list FeatureView) :
  ∀ w, txn w = None →
       (size (datastore w) < fuel)%nat →
       teardown_infra fuel project tables w
       = (Ok (Some tt),
          set_datastore (filter (λ ke, ¬ torn_down_any project tables ke.1) (datastore w)) w).
Proof.
  induction tables as [|table tables IH]; intros w Htxn Hfuel.
  - simpl. unfold ret. f_equal. rewrite map_filter_id; [by destruct w|].
    intros k e _ Hex. by apply Exists_nil in Hex.
  - cbn [teardown_infra]. unfold mbind, Py_bind, bind.
    rewrite teardown_table_spec by done.
    rewrite IH; [|done|].
    2:{ cbn [datastore set_datastore].
        pose proof (map_size_filter (λ ke : Key * Entity, ¬ torn_down project table ke.1)
                      (datastore w)). lia. }
    f_equal. unfold set_datastore. cbn. f_equal.
    rewrite map_filter_filter. apply map_filter_ext. intros k e _.
    unfold torn_down_any. rewrite Exists_cons. simpl. tauto.
Qed.

(** X10: [teardown_infra], called outside a transaction, returns after
    removing, for every table given, the table's own entity and every row
    under it, and nothing else; the entities of other tables and projects are
    as before.  A second call changes nothing. *)
Theorem teardown_infra_removes_tables (fuel : nat) (project : string)
    (tables : list FeatureView) (w : World) :
  txn w = None →
  (size (datastore w) < fuel)%nat →
  let run := teardown_infra fuel project tables w in
  run.1 = Ok (Some tt)
  ∧ (∀ k, datastore run.2 !! k
          = if decide (Exists (λ table, torn_down project table k) tables)
            then None else datastore w !! k)
  ∧ txn run.2 = None
  ∧ teardown_infra fuel project tables run.2 = (Ok (Some tt), run.2).
Proof.
  intros Htxn Hfuel. cbv zeta. rewrite teardown_infra_spec by done. cbn [fst snd].
  assert (∀ k, filter (λ ke : Key * Entity, ¬ torn_down_any project tables ke.1)
                      (datastore w) !! k
               = if decide (Exists (λ table, torn_down project table k) tables)
                 then None else datastore w !! k) as Hlook.
  { intros k. case_decide as Hex.
    - apply map_lookup_filter_None. right. intros e _ Hnot. by apply Hnot.
    - destruct (datastore w !! k) as [e|] eqn:He.
      + apply map_lookup_filter_Some. by split.
      + apply map_lookup_filter_None. by left. }
  split; [done|]. split; [exact Hlook|]. split; [done|].
  rewrite teardown_infra_spec; [|done|].
  2:{ cbn [datastore set_datastore].
      pose proof (map_size_filter (λ ke : Key * Entity, ¬ torn_down_any project tables ke.1)
                    (datastore w)). lia. }
  f_equal. unfold set_datastore. cbn. f_equal.
  rewrite map_filter_filter. apply map_filter_ext. intros k e _. simpl. tauto.
Qed.

End InfraFacts.
End InfraFacts.

Module InfraReadFacts.
Section InfraReadFacts.

Context {ValueProto : Type} `{!ProtoRuntime ValueProto}.
Import KeyCodec Gcp Spec MoreSpec Infra.

Lemma row_key_torn_down project table (document_id : string) :
  torn_down project table (row_key project table document_id).
Proof.
  right. split; [done|]. unfold has_ancestor, table_key, row_key.
  apply bool_decide_pack. by exists [("Row", document_id)].
Qed.

(** X11: after [teardown_infra] a torn-down table reads as empty:
    [online_read] returns [(None, None)] for every key asked for. *)
Theorem read_after_teardown (fuel : nat) (project : string) (tables : list FeatureView)
    (table : FeatureView) (entity_keys : list (EntityKeyProto ValueProto)) (w : World) :
  txn w = None →
  (size (datastore w) < fuel)%nat →
  table ∈ tables →
  (online_read project table entity_keys (teardown_infra fuel project tables w).2).1
  = Ok (replicate (length entity_keys) (None, None)).
Proof.
  intros Htxn Hfuel Hin.
  rewrite WriteMoreFacts.online_read_spec. cbn [fst]. f_equal.
  rewrite InfraFacts.teardown_infra_spec by done. cbn [snd datastore set_datastore].
  induction entity_keys as [|k ks IH]; [done|].
  rewrite fmap_cons. cbn [length replicate]. f_equal; [|exact IH]. unfold read_one.
  assert (filter (λ ke : Key * Entity, ¬ torn_down_any project tables ke.1) (datastore w)
          !! row_key project table (compute_datastore_entity_id k) = None) as ->; [|done].
  apply map_lookup_filter_None. right. intros e _ Hnot. apply Hnot.
  apply Exists_exists. exists table. split; [done|]. apply row_key_torn_down.
Qed.

End InfraReadFacts.
End InfraReadFacts.

(** ** The entity id keeps the whole hash *)

Module IdFacts.
Section IdFacts.

Context {ValueProto : Type} `{!ProtoRuntime ValueProto}.
Import Hex KeyCodec MoreSpec.

(** X12: the hexadecimal text loses nothing of the hash: two entity keys get
    the same Datastore entity id exactly when the hashes of their serialized
    keys are the same bytes. *)
Theorem entity_id_eq_iff_hash_eq (K1 K2 : EntityKeyProto ValueProto) :
  compute_datastore_entity_id K1 = compute_datastore_entity_id K2
  ↔ mmh3_hash_bytes (serialize_entity_key K1) = mmh3_hash_bytes (serialize_entity_key K2).
Proof.
  unfold compute_datastore_entity_id, hex. split; [|by intros ->].
  intros Heq. by apply HexFacts.chars_hex_inj, HexFacts.string_of_list_ascii_inj.
Qed.

End IdFacts.
End IdFacts.

(** ** Materializing twice *)

Module MaterializeMoreFacts.
Section MaterializeMoreFacts.

Context {ValueProto : Type} `{!ProtoRuntime ValueProto} `{!Offline ValueProto}.
Import Gcp Spec MaterializeFacts.

Lemma materialize_outcome feature_view start_date end_date registry project w :
  let run := materialize_single_feature_view feature_view start_date end_date
                                             registry project w in
  let interval := (make_tzaware start_date, make_tzaware end_date) in
  (is_ok run.1.1.1 = true
   ∧ run.1.1.2 = append_interval feature_view interval
   ∧ run.1.2 = apply_feature_view registry (append_interval feature_view interval) project)
  ∨ (is_ok run.1.1.1 = false ∧ run.1.1.2 = feature_view ∧ run.1.2 = registry).
Proof.
  cbv zeta. rewrite materialize_unfold.
  destruct (rows_to_write _ _ _ _ _) as [data|e]; [|by right].
  destruct (online_write_batch _ _ _ _ _) as [[[]|e] w']; [by left|by right].
Qed.

(** X13: materializing a feature view again.  After a first call that
    returned, a second call on the same view and registry either returns, and
    then both intervals are at the end of the list, in the order of the calls,
    or raises, and then the first interval is still there; in both cases the
    registry holds the view with just these intervals. *)
Theorem materialize_twice (feature_view : FeatureView) (start1 end1 start2 end2 : datetime)
    (registry : Registry) (project : string) (w : World) :
  let run1 := materialize_single_feature_view feature_view start1 end1 registry project w in
  let run2 := materialize_single_feature_view run1.1.1.2 start2 end2 run1.1.2 project run1.2 in
  let interval1 := (make_tzaware start1, make_tzaware end1) in
  let interval2 := (make_tzaware start2, make_tzaware end2) in
  is_ok run1.1.1.1 = true →
  materialization_intervals run2.1.1.2
  = materialization_intervals feature_view
    ++ (if is_ok run2.1.1.1 then [interval1; interval2] else [interval1])
  ∧ reg_feature_views run2.1.2 !! (project, fv_name feature_view) = Some run2.1.1.2.
Proof.
  cbv zeta. intros Hok1.
  destruct (materialize_outcome feature_view start1 end1 registry project w)
    as [(_ & Hfv1 & Hreg1)|(Hfail & _)]; [|congruence].
  cbv zeta in Hfv1, Hreg1. rewrite Hfv1, Hreg1.
  set (fv1 := append_interval feature_view (make_tzaware start1, make_tzaware end1)).
  destruct (materialize_outcome fv1 start2 end2
              (apply_feature_view registry fv1 project) project
              (materialize_single_feature_view feature_view start1 end1 registry project w).2)
    as [(Hok2 & Hfv2 & Hreg2)|(Hfail2 & Hfv2 & Hreg2)];
    cbv zeta in Hfv2, Hreg2; rewrite Hfv2, Hreg2.
  - rewrite Hok2. split.
    + subst fv1. simpl. by rewrite <- app_assoc.
    + change (fv_name feature_view) with (fv_name (append_interval fv1
               (make_tzaware start2, make_tzaware end2))).
      apply lookup_insert_eq.
  - rewrite Hfail2. split; [done|].
    change (fv_name feature_view) with (fv_name fv1). apply lookup_insert_eq.
Qed.

End MaterializeMoreFacts.
End MaterializeMoreFacts.

(** ** The online store validator *)

Module ConfigFacts.

Import Config.

Lemma impute_type_set (provider : ConfigValue) (d : gmap string YamlValue) :
  is_Some (d !! "type") → impute_type provider d = d.
Proof.
  intros Hs. unfold impute_type. rewrite bool_decide_eq_true_2; [done|].
  by apply elem_of_dom.
Qed.

Lemma impute_type_unset (provider : ConfigValue) (d : gmap string YamlValue) :
  d !! "type" = None →
  impute_type provider d
  = if bool_decide (provider = VScalar (YStr "local")) then <["type" := YStr "sqlite"]> d
    else if bool_decide (provider = VScalar (YStr "gcp")
                         ∨ provider = VScalar (YStr "aws_dynamo"))
         then <["type" := YStr "datastore"]> d
         else d.
Proof.
  intros Hn. unfold impute_type. rewrite bool_decide_eq_false_2.
  2:{ rewrite elem_of_dom, Hn. by intros [? ?]. }
  repeat case_bool_decide; try done; naive_solver.
Qed.

(** The validator on a mapping whose [online_store] is a mapping [d], with
    the provider [provider]. *)
Lemma validate_dict (values : gmap string ConfigValue) (d : gmap string YamlValue)
    (provider : ConfigValue) :
  values !! "online_store" = Some (VDict d) →
  values !! "provider" = Some provider →
  _validate_online_store_config values
  = let d' := impute_type provider d in
    let values' := <["online_store" := VDict d']> values in
    match d' !! "type" with
    | None => ([], inl (CfgKeyError "type"))
    | Some t =>
        if bool_decide (t = YStr "sqlite") then
          ([], if construct_sqlite d' is Some _ then inr values'
               else inl (CfgValidationError "online_store"))
        else if bool_decide (t = YStr "datastore") then
          ([], if construct_datastore d' is Some _ then inr values'
               else inl (CfgValidationError "online_store"))
        else if bool_decide (t = YStr "dynamo") then
          (["govno"], if construct_dynamo d' is Some _ then inr values'
                      else inl (CfgValidationError "online_store"))
        else ([], inl CfgAssertionError)
    end.
Proof.
  intros Hos Hp. unfold _validate_online_store_config. rewrite Hos. cbv zeta.
  rewrite Hos, Hp.
  destruct (impute_type provider d !! "type") as [t|]; [|done].
  repeat case_bool_decide; subst; try done;
    try (by destruct (construct_sqlite _));
    try (by destruct (construct_datastore _));
    try (by destruct (construct_dynamo _)).
  all: exfalso; set_solver.
Qed.

Lemma validate_absent (values : gmap string ConfigValue) :
  values !! "online_store" = None →
  _validate_online_store_config values
  = _validate_online_store_config (<["online_store" := VDict ∅]> values).
Proof.
  intros Hn. unfold _validate_online_store_config at 1 2. rewrite Hn.
  cbv zeta. by rewrite !lookup_insert_eq.
Qed.

Lemma validate_not_dict (values : gmap string ConfigValue) (v : ConfigValue) :
  values !! "online_store" = Some v →
  (∀ d, v ≠ VDict d) →
  _validate_online_store_config values = ([], inr values).
Proof.
  intros Hv Hd. unfold _validate_online_store_config. rewrite Hv. cbv zeta. rewrite Hv.
  destruct v as [y|d|o]; [done| |done]. by destruct (Hd d).
Qed.

(** The outcome for a mapping without a type, from the provider. *)
Lemma validate_unset_dict (values : gmap string ConfigValue) (d : gmap string YamlValue)
    (provider : ConfigValue) (out : list string) (values' : gmap string ConfigValue) :
  values !! "online_store" = Some (VDict d) →
  d !! "type" = None →
  values !! "provider" = Some provider →
  _validate_online_store_config values = (out, inr values') →
  out = []
  ∧ ((provider = VScalar (YStr "local")
      ∧ values' = <["online_store" := VDict (<["type" := YStr "sqlite"]> d)]> values)
     ∨ ((provider = VScalar (YStr "gcp") ∨ provider = VScalar (YStr "aws_dynamo"))
        ∧ values' = <["online_store" := VDict (<["type" := YStr "datastore"]> d)]> values)).
Proof.
  intros Hos Hn Hp. rewrite (validate_dict values d provider Hos Hp). cbv zeta.
  rewrite impute_type_unset by done.
  case_bool_decide as Hlocal.
  - rewrite lookup_insert_eq. rewrite bool_decide_eq_true_2 by done.
    destruct (construct_sqlite _); [|done]. intros [= <- <-]. split; [done|]. by left.
  - case_bool_decide as Hgcp.
    + rewrite lookup_insert_eq. rewrite bool_decide_eq_false_2 by done.
      rewrite bool_decide_eq_true_2 by done.
      destruct (construct_datastore _); [|done]. intros [= <- <-]. split; [done|]. by right.
    + by rewrite Hn.
Qed.

(** X14: the type the validator fills in.  When the online store is not
    given, or is a mapping without a type, and validation succeeds, the type
    is [sqlite] for the provider [local] and [datastore] for the providers
    [gcp] and [aws_dynamo]; no provider gets [dynamo], and nothing is
    printed. *)
Theorem default_type_from_provider (values values' : gmap string ConfigValue)
    (out : list string) :
  type_unset values →
  _validate_online_store_config values = (out, inr values') →
  out = []
  ∧ ∃ d', values' !! "online_store" = Some (VDict d')
          ∧ ((values !! "provider" = Some (VScalar (YStr "local"))
              ∧ d' !! "type" = Some (YStr "sqlite"))
             ∨ ((values !! "provider" = Some (VScalar (YStr "gcp"))
                 ∨ values !! "provider" = Some (VScalar (YStr "aws_dynamo")))
                ∧ d' !! "type" = Some (YStr "datastore"))).
Proof.
  unfold type_unset. intros Hunset Hrun.
  assert (∃ d values0, values0 !! "online_store" = Some (VDict d) ∧ d !! "type" = None
                       ∧ values0 !! "provider" = values !! "provider"
                       ∧ _validate_online_store_config values0 = (out, inr values'))
    as (d & values0 & Hos & Hn & Hprov & Hrun0).
  { destruct (values !! "online_store") as [[y|d|o]|] eqn:Hos; try done.
    - by exists d, values.
    - exists ∅, (<["online_store" := VDict ∅]> values).
      rewrite lookup_insert_eq, lookup_insert_ne by done.
      by rewrite <- validate_absent. }
  destruct (values0 !! "provider") as [provider|] eqn:Hp.
  2:{ unfold _validate_online_store_config in Hrun0. rewrite Hos in Hrun0.
      cbv zeta in Hrun0. by rewrite Hos, Hp in Hrun0. }
  destruct (validate_unset_dict values0 d provider out values' Hos Hn Hp Hrun0)
    as (Hout & [[-> ->]|[Hgcp ->]]); (split; [done|]).
  - eexists. rewrite lookup_insert_eq. split; [done|]. left.
    by rewrite lookup_insert_eq.
  - eexists. rewrite lookup_insert_eq. split; [done|]. right.
    rewrite lookup_insert_eq. split; [|done]. rewrite <- Hprov.
    destruct Hgcp as [->| ->]; [by left|by right].
Qed.

(** A successful validation of a mapping [d]: the type after imputation
    and the class that accepted the mapping. *)
Lemma validate_dict_success (values : gmap string ConfigValue) (d : gmap string YamlValue)
    (provider : ConfigValue) (out : list string) (values' : gmap string ConfigValue) :
  values !! "online_store" = Some (VDict d) →
  values !! "provider" = Some provider →
  _validate_online_store_config values = (out, inr values') →
  let d' := impute_type provider d in
  values' = <["online_store" := VDict d']> values
  ∧ ((d' !! "type" = Some (YStr "sqlite") ∧ out = [] ∧ is_Some (construct_sqlite d'))
     ∨ (d' !! "type" = Some (YStr "datastore") ∧ out = []
        ∧ is_Some (construct_datastore d'))
     ∨ (d' !! "type" = Some (YStr "dynamo") ∧ out = ["govno"]
        ∧ is_Some (construct_dynamo d'))).
Proof.
  intros Hos Hp. rewrite (validate_dict values d provider Hos Hp). cbv zeta.
  destruct (impute_type provider d !! "type") as [t|] eqn:Ht; [|done].
  case_bool_decide as Hs; [subst t|].
  { destruct (construct_sqlite _) eqn:Hc; [|done]. intros [= <- <-].
    split; [done|]. left. repeat split; eauto. }
  case_bool_decide as Hd; [subst t|].
  { destruct (construct_datastore _) eqn:Hc; [|done]. intros [= <- <-].
    split; [done|]. right. left. repeat split; eauto. }
  case_bool_decide as Hy; [subst t|done].
  destruct (construct_dynamo _) eqn:Hc; [|done]. intros [= <- <-].
  split; [done|]. right. right. repeat split; eauto.
Qed.

Lemma no_extra_fields_spec (d : gmap string YamlValue) (fields : list string) (k : string) :
  no_extra_fields d fields = true → is_Some (d !! k) → k ∈ fields.
Proof.
  unfold no_extra_fields. intros Hsub%bool_decide_eq_true Hk.
  apply elem_of_dom in Hk. apply Hsub in Hk. by apply elem_of_list_to_set in Hk.
Qed.

Lemma validate_dict_stable (values : gmap string ConfigValue) (d : gmap string YamlValue)
    (out : list string) (values' : gmap string ConfigValue) :
  values !! "online_store" = Some (VDict d) →
  _validate_online_store_config values = (out, inr values') →
  (∀ k, k ≠ "online_store" → values' !! k = values !! k)
  ∧ _validate_online_store_config values' = (out, inr values')
  ∧ ∃ d' t, values' !! "online_store" = Some (VDict d')
            ∧ d' !! "type" = Some (YStr t)
            ∧ t ∈ ["sqlite"; "datastore"; "dynamo"]
            ∧ ∀ k, is_Some (d' !! k) → k ∈ declared_fields t.
Proof.
  intros Hos Hrun.
  destruct (values !! "provider") as [provider|] eqn:Hp.
  2:{ unfold _validate_online_store_config in Hrun. rewrite Hos in Hrun.
      cbv zeta in Hrun. by rewrite Hos, Hp in Hrun. }
  pose proof Hrun as Hrun'. rewrite (validate_dict values d provider Hos Hp) in Hrun'.
  destruct (validate_dict_success values d provider out values' Hos Hp Hrun)
    as (Hv & Hcase). cbv zeta in Hv, Hcase, Hrun'.
  set (d' := impute_type provider d) in *.
  assert (is_Some (d' !! "type")) as Htype by (destruct Hcase as [(-> & _)|[(-> & _)|(-> & _)]]; eauto).
  split; [|split].
  - intros k Hk. by rewrite Hv, lookup_insert_ne.
  - rewrite (validate_dict values' d' provider).
    + cbv zeta. rewrite impute_type_set by done.
      rewrite (insert_id values') by (by rewrite Hv, lookup_insert_eq).
      rewrite <- Hv in Hrun'. exact Hrun'.
    + by rewrite Hv, lookup_insert_eq.
    + by rewrite Hv, lookup_insert_ne.
  - exists d'. rewrite Hv, lookup_insert_eq.
    destruct Hcase as [(Ht & _ & [o Hc])|[(Ht & _ & [o Hc])|(Ht & _ & [o Hc])]].
    + exists "sqlite". repeat split; [done|set_solver|].
      unfold construct_sqlite in Hc.
      destruct (no_extra_fields d' ["type"; "path"]) eqn:Hex; [|done].
      intros k Hk. by apply (no_extra_fields_spec d').
    + exists "datastore". repeat split; [done|set_solver|].
      unfold construct_datastore in Hc.
      destruct (no_extra_fields d' ["type"; "project_id"]) eqn:Hex; [|done].
      intros k Hk. by apply (no_extra_fields_spec d').
    + exists "dynamo". repeat split; [done|set_solver|].
      unfold construct_dynamo in Hc.
      destruct (no_extra_fields d' ["type"; "project_id"]) eqn:Hex; [|done].
      intros k Hk. by apply (no_extra_fields_spec d').
Qed.

(** X15: what the validator returns it accepts again, unchanged.  A
    returned mapping differs from the given one at most under
    [online_store]; validating it again prints and returns the same; and when
    [online_store] is a mapping, it has one of the three types and no key
    that the class of that type does not declare. *)
Theorem validated_config_is_stable (values values' : gmap string ConfigValue)
    (out : list string) :
  _validate_online_store_config values = (out, inr values') →
  (∀ k, k ≠ "online_store" → values' !! k = values !! k)
  ∧ _validate_online_store_config values' = (out, inr values')
  ∧ match values' !! "online_store" with
    | Some (VDict d') =>
        ∃ t, d' !! "type" = Some (YStr t)
             ∧ t ∈ ["sqlite"; "datastore"; "dynamo"]
             ∧ ∀ k, is_Some (d' !! k) → k ∈ declared_fields t
    | Some _ => values' = values
    | None => False
    end.
Proof.
  intros Hrun.
  destruct (values !! "online_store") as [v|] eqn:Hos.
  - destruct v as [y|d|o].
    + rewrite (validate_not_dict values _ Hos) in Hrun by done.
      assert (out = [] ∧ values' = values) as [-> ->] by (split; congruence).
      split; [done|].
      split; [by apply (validate_not_dict values _ Hos)|]. by rewrite Hos.
    + destruct (validate_dict_stable values d out values' Hos Hrun)
        as (Hframe & Hagain & d' & t & Hos' & Ht & Hin & Hfields).
      split; [done|]. split; [done|]. rewrite Hos'. by exists t.
    + rewrite (validate_not_dict values _ Hos) in Hrun by done.
      assert (out = [] ∧ values' = values) as [-> ->] by (split; congruence).
      split; [done|].
      split; [by apply (validate_not_dict values _ Hos)|]. by rewrite Hos.
  - rewrite validate_absent in Hrun by done.
    destruct (validate_dict_stable (<["online_store" := VDict ∅]> values) ∅ out values')
      as (Hframe & Hagain & d' & t & Hos' & Ht & Hin & Hfields);
      [by rewrite lookup_insert_eq|done|].
    split; [|split; [done|]].
    + intros k Hk. by rewrite Hframe, lookup_insert_ne.
    + rewrite Hos'. by exists t.
Qed.

(** X16: a type that is given is kept.  When [online_store] is a mapping
    with a [type], the validator returns the given mapping as it is, or
    raises: the provider does not change the type, it only has to be there. *)
Theorem explicit_type_is_kept (values values' : gmap string ConfigValue)
    (d : gmap string YamlValue) (out : list string) :
  values !! "online_store" = Some (VDict d) →
  is_Some (d !! "type") →
  _validate_online_store_config values = (out, inr values') →
  values' = values
  ∧ is_Some (values !! "provider")
  ∧ ∀ provider,
      _validate_online_store_config (<["provider" := provider]> values)
      = (out, inr (<["provider" := provider]> values)).
Proof.
  intros Hos Htype Hrun.
  destruct (values !! "provider") as [p|] eqn:Hp.
  2:{ unfold _validate_online_store_config in Hrun. rewrite Hos in Hrun.
      cbv zeta in Hrun. by rewrite Hos, Hp in Hrun. }
  pose proof Hrun as Hrun'. rewrite (validate_dict values d p Hos Hp) in Hrun'.
  cbv zeta in Hrun'. rewrite impute_type_set in Hrun' by done.
  rewrite (insert_id values) in Hrun' by done.
  assert (values' = values) as ->.
  { destruct (validate_dict_success values d p out values' Hos Hp Hrun) as [Hv _].
    cbv zeta in Hv. rewrite impute_type_set in Hv by done.
    by rewrite insert_id in Hv. }
  split; [done|]. split; [by eexists|].
  intros provider.
  rewrite (validate_dict (<["provider" := provider]> values) d provider).
  - cbv zeta. rewrite impute_type_set by done.
    rewrite (insert_id (<["provider" := provider]> values))
      by (by rewrite lookup_insert_ne).
    destruct (d !! "type") as [t|]; [|done].
    repeat case_bool_decide; try done.
    + destruct (construct_sqlite d); [|done]. by injection Hrun' as <-.
    + destruct (construct_datastore d); [|done]. by injection Hrun' as <-.
    + destruct (construct_dynamo d); [|done]. by injection Hrun' as <-.
  - by rewrite lookup_insert_ne.
  - by rewrite lookup_insert_eq.
Qed.

(** X17: how the validator fails before it looks at the fields.  With the
    online store absent or a mapping: without a provider it raises an
    [AssertionError]; with a provider other than [local], [gcp] and
    [aws_dynamo] and no type it raises [KeyError("type")]; with a type that is
    not one of [datastore], [sqlite], [dynamo] it raises an [AssertionError].
    In none of these cases is anything printed. *)
Theorem validator_rejections (values : gmap string ConfigValue)
    (d : gmap string YamlValue) :
  (values !! "online_store" = None ∧ d = ∅) ∨ values !! "online_store" = Some (VDict d) →
  (values !! "provider" = None →
   _validate_online_store_config values = ([], inl CfgAssertionError))
  ∧ (∀ provider,
       values !! "provider" = Some provider →
       d !! "type" = None →
       provider ∉ [VScalar (YStr "local"); VScalar (YStr "gcp");
                     VScalar (YStr "aws_dynamo")] →
       _validate_online_store_config values = ([], inl (CfgKeyError "type")))
  ∧ (∀ provider t,
       values !! "provider" = Some provider →
       d !! "type" = Some t →
       t ∉ [YStr "datastore"; YStr "sqlite"; YStr "dynamo"] →
       _validate_online_store_config values = ([], inl CfgAssertionError)).
Proof.
  intros Hos.
  assert (∃ values0, values0 !! "online_store" = Some (VDict d)
                     ∧ values0 !! "provider" = values !! "provider"
                     ∧ _validate_online_store_config values
                       = _validate_online_store_config values0)
    as (values0 & Hos0 & Hprov & ->).
  { destruct Hos as [[Hn ->]|Hd].
    - exists (<["online_store" := VDict ∅]> values).
      rewrite lookup_insert_eq, lookup_insert_ne by done.
      by rewrite <- validate_absent.
    - by exists values. }
  rewrite <- Hprov. split; [|split].
  - intros Hp. unfold _validate_online_store_config. rewrite Hos0. cbv zeta.
    by rewrite Hos0, Hp.
  - intros provider Hp Hn Hnot.
    rewrite (validate_dict values0 d provider Hos0 Hp). cbv zeta.
    rewrite impute_type_unset by done.
    rewrite bool_decide_eq_false_2 by set_solver.
    rewrite bool_decide_eq_false_2 by set_solver. by rewrite Hn.
  - intros provider t Hp Ht Hnot.
    rewrite (validate_dict values0 d provider Hos0 Hp). cbv zeta.
    rewrite impute_type_set by (by eexists). rewrite Ht.
    rewrite !bool_decide_eq_false_2 by set_solver. done.
Qed.

End ConfigFacts.

(** ** More theorems at concrete objects *)

Module MoreExamples.

Import Gcp Spec MoreSpec Infra Config Demo DemoOffline DemoMore WriteFacts.

#[local] Existing Instance Demo.runtime.

(** X1 at the store holding driver 1 at 100 and a batch of an older row of
    driver 1 and a row of driver 2, every commit meeting a conflict. *)
Lemma online_write_batch_never_older_witness :
  let w := mk_World (datastore world_with_stored) None (always Conflict) 0 [] in
  let k := key_of_row "p" driver_stats stored_row in
  datastore w !! k = Some (entity_of_row stored_row)
  ∧ ∃ e', datastore (online_write_batch "p" driver_stats stale_and_new
                                        (progress_arg false) w).2 !! k = Some e'
          ∧ 100 ≤ ent_event_ts e'.
Proof.
  intros w k.
  assert (datastore w !! k = Some (entity_of_row stored_row)) as Hk
    by (vm_compute; reflexivity).
  split; [exact Hk|].
  exact (WriteMoreFacts.online_write_batch_never_older
           false "p" driver_stats stale_and_new w k _ Hk).
Defined.

(** X2 at the same store and a row of driver 2. *)
Lemma online_write_batch_frame_witness :
  let w := world_with_stored in
  let k := key_of_row "p" driver_stats stored_row in
  (k ∉ (key_of_row "p" driver_stats <$> [row 2 20 90 None]))
  ∧ datastore (online_write_batch "p" driver_stats [row 2 20 90 None]
                                  (progress_arg false) w).2 !! k
    = Some (entity_of_row stored_row).
Proof.
  intros w k.
  assert (k ∉ (key_of_row "p" driver_stats <$> [row 2 20 90 None])) as Hk.
  { apply (bool_decide_unpack _). vm_compute. reflexivity. }
  split; [exact Hk|].
  rewrite (WriteMoreFacts.online_write_batch_frame
             false "p" driver_stats [row 2 20 90 None] w k Hk).
  vm_compute. reflexivity.
Defined.

(** X4 at a backend whose first two commits meet a conflict. *)
Lemma progress_replayed_on_retry_witness :
  let w := fresh_world (conflicts 2) in
  progress_log (_write_minibatch "p" driver_stats three_drivers
                                 (progress_arg true) w).2
  = replicate 9 1.
Proof.
  intros w.
  destruct (WriteMoreFacts.progress_replayed_on_retry "p" driver_stats three_drivers w 2)
    as [_ Hlog].
  - lia.
  - intros i Hi. destruct i as [|[|i]]; [reflexivity|reflexivity|lia].
  - reflexivity.
  - rewrite Hlog. vm_compute. reflexivity.
Defined.

(** X6 at a write to [driver_stats] and a read of [rider_stats]. *)
Lemma writes_stay_in_their_table_witness :
  let w := table_world 2 in
  ("p", fv_name driver_stats) ≠ ("p", fv_name other_table)
  ∧ (online_read "p" other_table [driver 1]
       (online_write_batch "p" driver_stats three_drivers (progress_arg false) w).2).1
    = (online_read "p" other_table [driver 1] w).1.
Proof.
  intros w.
  assert (("p", fv_name driver_stats) ≠ ("p", fv_name other_table)) as Hne by discriminate.
  split; [exact Hne|].
  exact (WriteMoreFacts.writes_stay_in_their_table
           false "p" driver_stats "p" other_table three_drivers [driver 1] w Hne).
Defined.

(** X7 at the batch of three drivers on an empty store. *)
Lemma online_write_batch_distinct_keys_witness :
  let w := fresh_world no_faults in
  let run := online_write_batch "p" driver_stats three_drivers (progress_arg true) w in
  NoDup (key_of_row "p" driver_stats <$> three_drivers)
  ∧ run.1 = Ok tt
  ∧ commits_seen run.2 = 1%nat
  ∧ progress_log run.2 = [1; 1; 1].
Proof.
  intros w run.
  assert (NoDup (key_of_row "p" driver_stats <$> three_drivers)) as Hnd.
  { apply (bool_decide_unpack _). vm_compute. reflexivity. }
  assert (healthy w) as Hw by (intros n; reflexivity).
  destruct (WriteMoreFacts.online_write_batch_distinct_keys
              true "p" driver_stats three_drivers w Hw Hnd)
    as (Hok & _ & Hseen & Hlog).
  split; [exact Hnd|]. split; [exact Hok|]. split.
  - subst run. rewrite Hseen. vm_compute. reflexivity.
  - subst run. rewrite Hlog. vm_compute. reflexivity.
Defined.

(** X8 with the [sys.maxsize] of a 64-bit build: a batch size of -1 raises
    on empty input, a batch size of 0 yields nothing of two rows, a batch
    size of 2 yields three rows in two minibatches. *)
Lemma to_minibatches_lossless_iff_witness :
  let maxsize := (2 ^ 63 - 1)%Z in
  Batch._to_minibatches_int maxsize (-1) ([] : list Z) = None
  ∧ Batch._to_minibatches_int maxsize 0 [1; 2] = Some []
  ∧ Batch._to_minibatches_int maxsize 2 [1; 2; 3] = Some [[1; 2]; [3]].
Proof.
  intros maxsize.
  destruct (BatchMoreFacts.to_minibatches_lossless_iff maxsize (-1) ([] : list Z))
    as (_ & Hraise & _).
  destruct (BatchMoreFacts.to_minibatches_lossless_iff maxsize 0 [1; 2])
    as (_ & _ & Hzero & _).
  destruct (BatchMoreFacts.to_minibatches_lossless_iff maxsize 2 [1; 2; 3])
    as (_ & _ & _ & Hnat).
  split; [|split].
  - apply Hraise. left. lia.
  - apply Hzero. subst maxsize. lia.
  - change 2 with (Z.of_nat 2). rewrite Hnat by (subst maxsize; simpl; lia).
    vm_compute. reflexivity.
Defined.

(** X9 at five rows in minibatches of two. *)
Lemma to_minibatches_slices_witness :
  Batch._to_minibatches 2 [1; 2; 3; 4; 5] !! 2%nat = Some [5]
  ∧ length [5] = Nat.min 2 (length [1; 2; 3; 4; 5] - 2 * 2).
Proof.
  assert (Batch._to_minibatches 2 [1; 2; 3; 4; 5] !! 2%nat = Some [5]) as Hi
    by (vm_compute; reflexivity).
  split; [exact Hi|].
  destruct (BatchMoreFacts.to_minibatches_slices 2 [1; 2; 3; 4; 5] 2 [5]
              ltac:(lia) Hi) as (_ & Hlen & _).
  exact Hlen.
Defined.

(** X10 at a store with three rows of [driver_stats] and a row of
    [rider_stats]. *)
Lemma teardown_infra_removes_tables_witness :
  let w := table_world 3 in
  let run := teardown_infra 5 "p" [driver_stats] w in
  txn w = None
  ∧ (size (datastore w) < 5)%nat
  ∧ run.1 = Ok (Some tt)
  ∧ datastore run.2 !! (numbered_row driver_stats 1).1 = None
  ∧ datastore run.2 !! (numbered_row other_table 0).1 = Some (numbered_row other_table 0).2.
Proof.
  intros w run.
  assert (size (datastore w) < 5)%nat as Hsize by (vm_compute; lia).
  destruct (InfraFacts.teardown_infra_removes_tables 5 "p" [driver_stats] w eq_refl Hsize)
    as (Hok & Hlook & _).
  split; [reflexivity|]. split; [exact Hsize|]. split; [exact Hok|]. split.
  - subst run. rewrite Hlook. vm_compute. reflexivity.
  - subst run. rewrite Hlook. vm_compute. reflexivity.
Defined.

(** X11 at the same store, both tables torn down. *)
Lemma read_after_teardown_witness :
  let w := table_world 3 in
  driver_stats ∈ [driver_stats; other_table]
  ∧ (online_read "p" driver_stats [driver 1; driver 2]
       (teardown_infra 5 "p" [driver_stats; other_table] w).2).1
    = Ok [(None, None); (None, None)].
Proof.
  intros w.
  assert (size (datastore w) < 5)%nat as Hsize by (vm_compute; lia).
  assert (driver_stats ∈ [driver_stats; other_table]) as Hin by (by left).
  split; [exact Hin|].
  exact (InfraReadFacts.read_after_teardown 5 "p" [driver_stats; other_table]
           driver_stats [driver 1; driver 2] w eq_refl Hsize Hin).
Defined.

(** X5 at a byte row written to an empty store. *)
Lemma write_then_read_witness :
  let r := byte_row x01 x2a 100 in
  let w := fresh_world no_faults in
  (∀ v, @Value_ParseFromString byte byte_runtime (@Value_SerializeToString byte byte_runtime v)
        = v)
  ∧ (@online_read byte byte_runtime "p" driver_stats [row_entity_key r]
       (@online_write_batch byte byte_runtime "p" driver_stats [r] (progress_arg false) w).2).1
    = Ok [(Some 100, Some {["value" := x2a]})].
Proof.
  intros r w.
  assert (∀ v, @Value_ParseFromString byte byte_runtime
                 (@Value_SerializeToString byte byte_runtime v) = v) as Hparse
    by (intros v; reflexivity).
  assert (healthy w) as Hw by (intros n; reflexivity).
  split; [exact Hparse|].
  rewrite (@WriteMoreFacts.write_then_read byte byte_runtime false "p" driver_stats r w
             Hparse Hw).
  vm_compute. reflexivity.
Defined.

(** X13 at two ranges over the rows of the demo source. *)
Lemma materialize_twice_witness :
  let run1 := @materialize_single_feature_view Z runtime offline driver_stats
                (mk_datetime 0 None) (mk_datetime 96 None) registry "p"
                (fresh_world no_faults) in
  let run2 := @materialize_single_feature_view Z runtime offline run1.1.1.2
                (mk_datetime 96 None) (mk_datetime 200 None) run1.1.2 "p" run1.2 in
  is_ok run1.1.1.1 = true
  ∧ is_ok run2.1.1.1 = true
  ∧ materialization_intervals run2.1.1.2
    = [(mk_datetime 0 (Some 0), mk_datetime 96 (Some 0));
       (mk_datetime 96 (Some 0), mk_datetime 200 (Some 0))].
Proof.
  intros run1 run2.
  assert (is_ok run1.1.1.1 = true) as Hok1 by (vm_compute; reflexivity).
  assert (is_ok run2.1.1.1 = true) as Hok2 by (vm_compute; reflexivity).
  destruct (@MaterializeMoreFacts.materialize_twice Z runtime offline driver_stats
              (mk_datetime 0 None) (mk_datetime 96 None)
              (mk_datetime 96 None) (mk_datetime 200 None)
              registry "p" (fresh_world no_faults) Hok1) as [Hint _].
  split; [exact Hok1|]. split; [exact Hok2|].
  subst run2 run1. rewrite Hint. vm_compute. reflexivity.
Defined.

(** X14 at a configuration for the provider [aws_dynamo] without an online
    store. *)
Lemma default_type_from_provider_witness :
  type_unset (yaml "aws_dynamo")
  ∧ ∃ values', _validate_online_store_config (yaml "aws_dynamo") = ([], inr values')
               ∧ values' !! "online_store"
                 = Some (VDict {["type" := YStr "datastore"]}).
Proof.
  assert (type_unset (yaml "aws_dynamo")) as Hunset by (vm_compute; exact I).
  split; [exact Hunset|].
  exists (yaml_with_store "aws_dynamo" {["type" := YStr "datastore"]}).
  assert (_validate_online_store_config (yaml "aws_dynamo")
          = ([], inr (yaml_with_store "aws_dynamo" {["type" := YStr "datastore"]}))) as Hrun
    by (vm_compute; reflexivity).
  split; [exact Hrun|].
  destruct (ConfigFacts.default_type_from_provider _ _ _ Hunset Hrun)
    as (_ & d' & Hos & _).
  vm_compute. reflexivity.
Defined.

(** X15 at a configuration with a dynamo online store. *)
Lemma validated_config_is_stable_witness :
  let values := yaml_with_store "gcp" {["type" := YStr "dynamo"; "project_id" := YNone]} in
  _validate_online_store_config values = (["govno"], inr values)
  ∧ ∀ k, k ≠ "online_store" → values !! k = values !! k.
Proof.
  intros values.
  assert (_validate_online_store_config values = (["govno"], inr values)) as Hrun
    by (vm_compute; reflexivity).
  split; [exact Hrun|].
  exact (proj1 (ConfigFacts.validated_config_is_stable values values _ Hrun)).
Defined.

(** X16 at a configuration with a sqlite online store. *)
Lemma explicit_type_is_kept_witness :
  let d : gmap string YamlValue := {["type" := YStr "sqlite"; "path" := YStr "online.db"]} in
  let values := yaml_with_store "gcp" d in
  values !! "online_store" = Some (VDict d)
  ∧ is_Some (d !! "type")
  ∧ _validate_online_store_config values = ([], inr values)
  ∧ _validate_online_store_config (<["provider" := VScalar (YInt 7)]> values)
    = ([], inr (<["provider" := VScalar (YInt 7)]> values)).
Proof.
  intros d values.
  assert (values !! "online_store" = Some (VDict d)) as Hos by (vm_compute; reflexivity).
  assert (is_Some (d !! "type")) as Htype by (eexists; vm_compute; reflexivity).
  assert (_validate_online_store_config values = ([], inr values)) as Hrun
    by (vm_compute; reflexivity).
  destruct (ConfigFacts.explicit_type_is_kept values values d [] Hos Htype Hrun)
    as (_ & _ & Hany).
  split; [exact Hos|]. split; [exact Htype|]. split; [exact Hrun|]. apply Hany.
Defined.

(** X17 at a configuration for an unknown provider. *)
Lemma validator_rejections_witness :
  yaml "azure" !! "online_store" = None
  ∧ _validate_online_store_config (yaml "azure") = ([], inl (CfgKeyError "type")).
Proof.
  assert (yaml "azure" !! "online_store" = None) as Hos by (vm_compute; reflexivity).
  split; [exact Hos|].
  destruct (ConfigFacts.validator_rejections (yaml "azure") ∅ (or_introl (conj Hos eq_refl)))
    as (_ & Hkey & _).
  apply (Hkey (VScalar (YStr "azure"))).
  - vm_compute. reflexivity.
  - reflexivity.
  - apply (bool_decide_unpack _). vm_compute. reflexivity.
Defined.

End MoreExamples.
